(** * Verification of the TNM serviceability checker (src/app.py)

    Shallow embedding of the helpers, the table loader and the check
    logic of the Streamlit app.

    Python [str] values are modelled as Rocq [string]s whose characters
    are read as the Unicode code points U+0000 .. U+00FF (Latin-1).  On
    that range [str.lower], [str.isspace], the regular expression classes
    [\s] and [\d] and [str.strip] are written out exactly below. *)

From Stdlib Require Import Strings.String Strings.Ascii Lists.List Bool.Bool Arith.Arith Lia.
Import ListNotations.
Open Scope string_scope.
Open Scope list_scope.

(* ------------------------------------------------------------------ *)
(** ** Python string primitives on Latin-1 code points *)

Definition code (c : ascii) : nat := nat_of_ascii c.

Definition between (lo hi n : nat) : bool := Nat.leb lo n && Nat.leb n hi.

(** [str.isspace] / regex [\s]: the Latin-1 whitespace code points are
    \t \n \v \f \r (9..13), the separators \x1c..\x1f (28..31), the
    space (32), NEL (0x85) and NBSP (0xA0). *)
Definition is_space (c : ascii) : bool :=
  let n := code c in
  between 9 13 n || between 28 32 n || Nat.eqb n 133 || Nat.eqb n 160.

(** [str.lower] on one code point: A..Z and the Latin-1 capitals
    U+00C0..U+00DE except U+00D7 move down by 0x20; everything else is
    unchanged (U+00DF and U+00B5 have no single lower-case change). *)
Definition lower_char (c : ascii) : ascii :=
  let n := code c in
  if between 65 90 n || (between 192 222 n && negb (Nat.eqb n 215))
  then ascii_of_nat (n + 32) else c.

Fixpoint py_lower (s : string) : string :=
  match s with
  | EmptyString => EmptyString
  | String c r => String (lower_char c) (py_lower r)
  end.

Fixpoint lstrip (s : string) : string :=
  match s with
  | EmptyString => EmptyString
  | String c r => if is_space c then lstrip r else s
  end.

Fixpoint rev_str (s : string) : string :=
  match s with
  | EmptyString => EmptyString
  | String c r => rev_str r ++ String c EmptyString
  end.

Definition rstrip (s : string) : string := rev_str (lstrip (rev_str s)).

(** [str.strip()] with no argument. *)
Definition py_strip (s : string) : string := rstrip (lstrip s).

(** [s.replace(a, b)] for a one-character [a]. *)
Fixpoint replace_char (a b : ascii) (s : string) : string :=
  match s with
  | EmptyString => EmptyString
  | String c r =>
      if Ascii.eqb c a then String b (replace_char a b r)
      else String c (replace_char a b r)
  end.

(** [s.replace("\ufeff", <empty>)]: U+FEFF lies outside the modelled
    code points, so on every modelled string the call returns its
    argument. *)
Definition remove_bom (s : string) : string := s.

(** [re.sub(r"\s+", " ", s)]: every maximal run of whitespace becomes
    one space.  [in_run] records that the previous character was
    whitespace (already emitted as a space). *)
Fixpoint collapse_ws_aux (in_run : bool) (s : string) : string :=
  match s with
  | EmptyString => EmptyString
  | String c r =>
      if is_space c then
        if in_run then collapse_ws_aux true r
        else String " " (collapse_ws_aux true r)
      else String c (collapse_ws_aux false r)
  end.

Definition collapse_ws (s : string) : string := collapse_ws_aux false s.

(** [re.sub(pattern, <empty>, s)] for a one-character class: keep the
    characters outside the class. *)
Fixpoint keep_chars (p : ascii -> bool) (s : string) : string :=
  match s with
  | EmptyString => EmptyString
  | String c r => if p c then String c (keep_chars p r) else keep_chars p r
  end.

Definition is_ascii_digit (c : ascii) : bool :=
  between 48 57 (code c).

Definition is_lower_alnum_or_space (c : ascii) : bool :=
  let n := code c in
  between 97 122 n || is_ascii_digit c || Nat.eqb n 32.

(** Python [needle in hay] on strings. *)
Fixpoint is_substring (needle hay : string) : bool :=
  if String.prefix needle hay then true
  else match hay with
       | EmptyString => false
       | String _ r => is_substring needle r
       end.

(* ------------------------------------------------------------------ *)
(** ** Helpers of app.py *)

(** [_normalize_header] (app.py lines 53-58); the [(col or <empty>)]
    guard is the identity on strings. *)
Definition _normalize_header (col : string) : string :=
  let col := remove_bom (py_lower (py_strip col)) in
  let col := replace_char "_" " " col in
  let col := collapse_ws col in
  let col := keep_chars is_lower_alnum_or_space col in
  col.

(** [_digits_only] (app.py lines 82-83): [re.sub(r"\D", <empty>, s)];
    the only Latin-1 code points of category Nd are 0..9. *)
Definition _digits_only (s : string) : string := keep_chars is_ascii_digit s.

(** [str.split()] with no argument: split on whitespace runs, dropping
    empty pieces. *)
Fixpoint py_split_aux (cur : string) (s : string) : list string :=
  match s with
  | EmptyString => if String.eqb cur EmptyString then [] else [cur]
  | String c r =>
      if is_space c then
        if String.eqb cur EmptyString then py_split_aux EmptyString r
        else cur :: py_split_aux EmptyString r
      else py_split_aux (cur ++ String c EmptyString) r
  end.

Definition py_split (s : string) : list string := py_split_aux EmptyString s.

(** Python truthiness of an optional string ([None] and the empty
    string are falsy). *)
Definition truthy (o : option string) : bool :=
  match o with
  | Some c => negb (String.eqb c EmptyString)
  | None => false
  end.

(** [t in cols] for a list of strings. *)
Definition mem (t : string) (cols : list string) : bool :=
  existsb (String.eqb t) cols.

(** [_guess_col] (app.py lines 60-68); a missing [fuzzy_tokens] is the
    empty list (both are falsy). *)
Definition _guess_col (cols targets fuzzy_tokens : list string) : option string :=
  match find (fun t => mem t cols) targets with
  | Some t => Some t
  | None =>
      match fuzzy_tokens with
      | [] => None
      | _ => find (fun c => forallb (fun tok => is_substring tok c) fuzzy_tokens) cols
      end
  end.

Definition PINCODE_SYNONYMS : list string :=
  ["pincode"; "pin code"; "pin"; "postal code"; "postcode"; "zip"; "zip code"].

(** [_resolve_pincode_col] (app.py lines 70-74). *)
Definition _resolve_pincode_col (cols : list string) : option string :=
  let col := _guess_col cols PINCODE_SYNONYMS [] in
  if truthy col then col
  else _guess_col cols [] ["pin"; "code"].

(** [_resolve_service_col] (app.py lines 76-80). *)
Definition _resolve_service_col (cols : list string) (canonical_text : string)
  : option string :=
  let exact := _guess_col cols [canonical_text] [] in
  if truthy exact then exact
  else _guess_col cols [] (py_split canonical_text).

(** [_looks_like_csv] (app.py lines 85-91). *)
Definition _looks_like_csv (text : string) : bool :=
  if String.eqb text EmptyString then false
  else
    let lower := py_lower text in
    if is_substring "<html" lower || is_substring "<!doctype html" lower then false
    else (is_substring "," text || is_substring (String (ascii_of_nat 9) EmptyString) text)
         && is_substring (String (ascii_of_nat 10) EmptyString) text.

(* ------------------------------------------------------------------ *)
(** ** Services *)

(** The keys of [SERVICE_CANONICAL], in dictionary order. *)
Inductive service := S4W_Tyre | S4W_Battery | S2W_Tyre | S2W_Battery.

Definition service_eqb (a b : service) : bool :=
  match a, b with
  | S4W_Tyre, S4W_Tyre | S4W_Battery, S4W_Battery
  | S2W_Tyre, S2W_Tyre | S2W_Battery, S2W_Battery => true
  | _, _ => false
  end.

Definition SERVICES : list service := [S4W_Tyre; S4W_Battery; S2W_Tyre; S2W_Battery].

(** [SERVICE_CANONICAL] (app.py lines 42-47). *)
Definition canonical (s : service) : string :=
  match s with
  | S4W_Tyre => "4w tyre order"
  | S4W_Battery => "4w battery order"
  | S2W_Tyre => "2w tyre order"
  | S2W_Battery => "2w battery order"
  end.

(* ------------------------------------------------------------------ *)
(** ** DataFrames *)

(** A cell of a frame read with [dtype=str]: a string, or NaN for an
    empty field. *)
Definition cell := option string.

(** [str(x)] of a cell. *)
Definition cell_str (x : cell) : string :=
  match x with Some s => s | None => "nan" end.

(** A DataFrame: its column labels and its rows, positionally. *)
Record frame := { columns : list string; rows : list (list cell) }.

(** Position of the first column with label [c]. *)
Fixpoint col_index (cols : list string) (c : string) : option nat :=
  match cols with
  | [] => None
  | d :: rest =>
      if String.eqb d c then Some 0
      else option_map S (col_index rest c)
  end.

(** Number of columns labelled [c]: pandas allows repeated labels, and
    normalizing two headers to the same text, or renaming a notes column
    to an existing "remark", produces them. *)
Definition col_count (cols : list string) (c : string) : nat :=
  List.length (filter (fun d => String.eqb d c) cols).

(** [str] of the field of row [r] in the first column labelled [c] (the
    empty string when there is none; a missing field is NaN).  This is
    what [str(row.get(c, ""))] gives when the label is not repeated. *)
Definition row_get_str (df : frame) (r : list cell) (c : string) : string :=
  match col_index (columns df) c with
  | None => EmptyString
  | Some i => cell_str (nth i r None)
  end.

(** A row padded (with NaN) or cut to [n] fields, as pandas aligns it. *)
Definition row_pad (n : nat) (r : list cell) : list cell :=
  firstn n (r ++ repeat None n).

(** [df.rename(columns={old: new})]. *)
Definition df_rename (df : frame) (old new : string) : frame :=
  {| columns := map (fun c => if String.eqb c old then new else c) (columns df);
     rows := rows df |}.

Fixpoint list_set {A} (i : nat) (x : A) (l : list A) : list A :=
  match l, i with
  | [], _ => []
  | _ :: r, O => x :: r
  | y :: r, S j => y :: list_set j x r
  end.

(** [df[c] = v] with one constant value for every row. *)
Definition df_set_const (df : frame) (c : string) (v : string) : frame :=
  match col_index (columns df) c with
  | Some i =>
      {| columns := columns df;
         rows := map (fun r => list_set i (Some v) (row_pad (length (columns df)) r)) (rows df) |}
  | None =>
      {| columns := columns df ++ [c];
         rows := map (fun r => row_pad (length (columns df)) r ++ [Some v]) (rows df) |}
  end.

(** [f] applied to the fields of a row under the columns labelled [c]. *)
Fixpoint map_fields (cols : list string) (c : string) (f : string -> string)
  (r : list cell) : list cell :=
  match cols, r with
  | d :: cols', x :: r' =>
      (if String.eqb d c then Some (f (cell_str x)) else x) :: map_fields cols' c f r'
  | _, _ => r
  end.

(** [df[c] = df[c].astype(str).map(f)] for an existing column [c], as
    pandas 2.1 and later (before 3.0) run it: with a repeated label
    [df[c]] is a DataFrame, [DataFrame.map] applies [f] to each of its
    fields, and the assignment writes every column labelled [c]. *)
Definition df_map_col (df : frame) (c : string) (f : string -> string) : frame :=
  match col_index (columns df) c with
  | Some _ =>
      {| columns := columns df;
         rows := map (fun r => map_fields (columns df) c f (row_pad (length (columns df)) r))
                     (rows df) |}
  | None => df  (* unreachable from the loader: the column was just named *)
  end.

(* ------------------------------------------------------------------ *)
(** ** Table loader (app.py lines 130-181) *)

(** The value of [SERVICE_COLUMN[...]] for one service key; the
    dictionary built by the loader has all four keys. *)
Definition service_col (resolved : list (service * string)) (s : service) : string :=
  match find (fun p => service_eqb (fst p) s) resolved with
  | Some (_, c) => c
  | None => EmptyString
  end.

(** The [for key, canonical in SERVICE_CANONICAL.items()] loop: the
    frame grows a constant ["no"] column for each unresolved service. *)
Fixpoint resolve_services (df : frame) (svcs : list service)
  : frame * list (service * string) :=
  match svcs with
  | [] => (df, [])
  | s :: rest =>
      let col := _resolve_service_col (columns df) (canonical s) in
      let '(df1, c) :=
        match col with
        | Some c => if truthy col then (df, c)
                    else (df_set_const df (canonical s) "no", canonical s)
        | None => (df_set_const df (canonical s) "no", canonical s)
        end in
      let '(df2, res) := resolve_services df1 rest in
      (df2, (s, c) :: res)
  end.

(** The optional remark/notes step. *)
Definition rename_remark (df : frame) : frame :=
  let remark_col :=
    find (fun c => is_substring "remark" c || is_substring "note" c) (columns df) in
  match remark_col with
  | Some rc =>
      if truthy remark_col && negb (String.eqb rc "remark")
      then df_rename df rc "remark" else df
  | None => df
  end.

(** One entry of [attempts]: the status code, or the exception name. *)
Inductive outcome := AStatus (code : nat) | AExc (name : string).
Definition attempt := (string * outcome)%type.

Inductive load_error :=
| NoPincodeColumn (cols : list string)  (** the normalized headers *)
| CouldNotFetch (last_err : option string).

(** The three results of [load_data_with_fallbacks]: success, the
    failure tuple, or an exception escaping the loader (pandas raises
    outside the [requests.RequestException] handler). *)
Inductive load_result :=
| LoadOk (df : frame) (resolved : list (service * string)) (attempts : list attempt)
| LoadFail (attempts : list attempt) (err : load_error)
| LoadCrash (attempts : list attempt).

(** Lines 146-172: the frame read from one tabular body, with raw headers
    [hs] and rows [rs]. *)
Definition process_table (hs : list string) (rs : list (list cell))
  (attempts : list attempt) : load_result :=
  let df := {| columns := map _normalize_header hs; rows := rs |} in
  let pincode_col := _resolve_pincode_col (columns df) in
  match pincode_col with
  | Some pc =>
      if negb (truthy pincode_col) then LoadFail attempts (NoPincodeColumn (columns df))
      else
        let df := if negb (String.eqb pc "pincode") then df_rename df pc "pincode" else df in
        let df := df_map_col df "pincode" _digits_only in
        let '(df, resolved) := resolve_services df SERVICES in
        let df := rename_remark df in
        LoadOk df resolved attempts
  | None => LoadFail attempts (NoPincodeColumn (columns df))
  end.

(** The outcome of [requests.get(url, ...)]: a response, or a
    [requests.RequestException] with its type name and message. *)
Inductive fetch_outcome :=
| FResp (status : nat) (text : string)
| FExc (name : string) (msg : string).

Section Loader.

(** The network and the CSV parser: [fetch u] is what [requests.get]
    gives for [u]; [read_csv t] is [pd.read_csv(StringIO(t), dtype=str)]
    as raw headers and rows, [None] when pandas raises. *)
Variable fetch : string -> fetch_outcome.
Variable read_csv : string -> option (list string * list (list cell)).

(** The [for url in ...] loop, with the attempts so far and the last
    request exception. *)
Fixpoint fetch_loop (urls : list string) (attempts : list attempt)
  (last_err : option string) : load_result :=
  match urls with
  | [] => LoadFail attempts (CouldNotFetch last_err)
  | url :: rest =>
      match fetch url with
      | FExc name msg => fetch_loop rest (attempts ++ [(url, AExc name)]) (Some msg)
      | FResp status text =>
          let attempts := attempts ++ [(url, AStatus status)] in
          if Nat.eqb status 200 && _looks_like_csv text then
            match read_csv text with
            | Some (hs, rs) => process_table hs rs attempts
            | None => LoadCrash attempts
            end
          else fetch_loop rest attempts last_err
      end
  end.

End Loader.

(** A candidate URL the loop moves past: the request raised, or the
    response is not a 200 with a CSV-looking body. *)
Definition passes_over (fetch : string -> fetch_outcome) (u : string) : bool :=
  match fetch u with
  | FExc _ _ => true
  | FResp status text => negb (Nat.eqb status 200 && _looks_like_csv text)
  end.

(* ------------------------------------------------------------------ *)
(** ** Check logic (app.py lines 240-281) *)

(** What the page shows, in order. *)
Inductive ui_msg :=
| MsgInvalidPincode                         (** line 244 *)
| MsgPincodeNotFound                        (** line 249 *)
| MsgServiceable (s : service) (pin : string)     (** line 274 *)
| MsgOnly4WTyre                             (** line 276 *)
| MsgRemark (remark : string)               (** line 279 *)
| MsgNotServiceable (s : service) (pin : string) (** line 281 *)
| MsgException.  (** an exception escapes the block; Streamlit shows it *)

(** What [row.get(c, "")] returns on the selected row (a Series indexed
    by the column labels): the default for a missing label, the field
    for a label that occurs once, a Series of the fields for a repeated
    label. *)
Inductive row_value := RDefault | RField (x : cell) | RSeries.

Definition row_get (df : frame) (r : list cell) (c : string) : row_value :=
  match col_index (columns df) c with
  | None => RDefault
  | Some i => if Nat.ltb 1 (col_count (columns df) c) then RSeries else RField (nth i r None)
  end.

(** [str(row.get(col, "")).strip().lower() == "yes"].  [str] of a Series
    prints its index beside the fields and ends with a "Name: ..., dtype:
    object" line, so it never reads "yes". *)
Definition yes_at (df : frame) (row : list cell) (col : string) : bool :=
  match row_get df row col with
  | RDefault => String.eqb (py_lower (py_strip EmptyString)) "yes"
  | RField x => String.eqb (py_lower (py_strip (cell_str x))) "yes"
  | RSeries => false
  end.

(** [str(v or "")]: a NaN field is truthy and prints as "nan"; [None]
    when [v] is a Series, whose truth value raises ValueError. *)
Definition str_or_empty (v : row_value) : option string :=
  match v with
  | RDefault => Some EmptyString
  | RField x => Some (cell_str x)
  | RSeries => None
  end.

(** [safe_yes] (lines 256-264): the canonical text is mapped to the
    resolved column of its service. *)
Definition safe_yes (df : frame) (resolved : list (service * string))
  (row : list cell) (s : service) : bool :=
  yes_at df row (service_col resolved s).

(** [is_4w_only] (lines 266-271). *)
Definition is_4w_only (df : frame) (resolved : list (service * string))
  (row : list cell) : bool :=
  safe_yes df resolved row S4W_Tyre
  && negb (safe_yes df resolved row S4W_Battery)
  && negb (safe_yes df resolved row S2W_Tyre)
  && negb (safe_yes df resolved row S2W_Battery).

(** Lines 251-281, for the selected [row]. *)
Definition evaluate_row (df : frame) (resolved : list (service * string))
  (service_type : service) (pin : string) (row : list cell) : list ui_msg :=
  let is_serviceable := yes_at df row (service_col resolved service_type) in
  if is_serviceable then
    [MsgServiceable service_type pin]
    ++ (if service_eqb service_type S4W_Tyre && is_4w_only df resolved row
        then [MsgOnly4WTyre] else [])
    ++ (match str_or_empty (row_get df row "remark") with
        | None => [MsgException]
        | Some r =>
            let remark := py_strip r in
            if negb (String.eqb remark EmptyString) && negb (String.eqb remark "-")
            then [MsgRemark remark] else []
        end)
  else [MsgNotServiceable service_type pin].

(** The whole [if check:] block: validation, lookup of the first row
    whose pincode equals [pin], evaluation.  [df["pincode"]] raises
    KeyError when no column has that label; with a repeated label it is a
    DataFrame, and indexing [df] with the boolean DataFrame
    [df["pincode"] == pin] raises on the repeated labels. *)
Definition check (df : frame) (resolved : list (service * string))
  (service_type : service) (pincode_input : string) : list ui_msg :=
  let pin := _digits_only pincode_input in
  if negb (Nat.eqb (String.length pin) 6) then [MsgInvalidPincode]
  else if negb (Nat.eqb (col_count (columns df) "pincode") 1) then [MsgException]
  else
    match find (fun r => String.eqb (row_get_str df r "pincode") pin) (rows df) with
    | None => [MsgPincodeNotFound]
    | Some row => evaluate_row df resolved service_type pin row
    end.

(* ------------------------------------------------------------------ *)
(** ** urllib.parse (CPython 3.13), on Latin-1 URLs

    The library routines [_variants_of_sheet_url] calls, written out as
    CPython 3.13 has them (its [urlunsplit] adds no '//' before a path
    that does not start with '/', and [urlsplit] checks a bracketed host
    with [_check_bracketed_netloc]).  Query keys and values decoded by
    [parse_qsl] may hold any code point, so they are lists of code
    points ([pystr]). *)

Definition pystr := list nat.

Definition cps (s : string) : pystr := map nat_of_ascii (list_ascii_of_string s).

Definition str_of_codes (l : list nat) : string :=
  string_of_list_ascii (map ascii_of_nat l).

Definition chr (n : nat) : string := String (ascii_of_nat n) EmptyString.

Fixpoint contains_char (c : ascii) (s : string) : bool :=
  match s with
  | EmptyString => false
  | String d r => Ascii.eqb d c || contains_char c r
  end.

(** [s.find(c)] for one character. *)
Fixpoint str_find (c : ascii) (s : string) : option nat :=
  match s with
  | EmptyString => None
  | String d r => if Ascii.eqb d c then Some 0 else option_map S (str_find c r)
  end.

Fixpoint str_take (n : nat) (s : string) : string :=
  match n, s with
  | O, _ | _, EmptyString => EmptyString
  | S k, String c r => String c (str_take k r)
  end.

Fixpoint str_drop (n : nat) (s : string) : string :=
  match n, s with
  | O, _ => s
  | _, EmptyString => EmptyString
  | S k, String _ r => str_drop k r
  end.

(** [s.find(c, start)]. *)
Definition str_find_from (c : ascii) (s : string) (start : nat) : option nat :=
  option_map (fun i => start + i) (str_find c (str_drop start s)).

(** [s.rfind(c)]. *)
Fixpoint str_rfind (c : ascii) (s : string) : option nat :=
  match s with
  | EmptyString => None
  | String d r =>
      match str_rfind c r with
      | Some i => Some (S i)
      | None => if Ascii.eqb d c then Some 0 else None
      end
  end.

(** [s.split(c)] for one character (empty pieces kept). *)
Fixpoint str_split (c : ascii) (s : string) : list string :=
  match s with
  | EmptyString => [EmptyString]
  | String d r =>
      if Ascii.eqb d c then EmptyString :: str_split c r
      else match str_split c r with
           | p :: ps => String d p :: ps
           | [] => [String d EmptyString]
           end
  end.

(** [s.split(c, 1)] when [c] occurs in [s]. *)
Definition split_once (c : ascii) (s : string) : option (string * string) :=
  match str_find c s with
  | Some i => Some (str_take i s, str_drop (S i) s)
  | None => None
  end.

Definition is_ascii_alpha (c : ascii) : bool :=
  between 65 90 (code c) || between 97 122 (code c).

Definition is_hex_digit (c : ascii) : bool :=
  is_ascii_digit c || between 65 70 (code c) || between 97 102 (code c).

Definition hex_value (c : ascii) : nat :=
  let n := code c in
  if is_ascii_digit c then n - 48 else if between 65 70 n then n - 55 else n - 87.

Definition all_chars (p : ascii -> bool) (s : string) : bool :=
  forallb p (list_ascii_of_string s).

(** *** ipaddress: what [ip_address(host)] accepts *)

(** [IPv4Address._parse_octet]: the checks run in order, the decimal
    value is only computed for at most three digits. *)
Definition ipv4_octet_ok (o : string) : bool :=
  if String.eqb o EmptyString then false
  else if negb (all_chars is_ascii_digit o) then false
  else if Nat.ltb 3 (String.length o) then false
  else if negb (String.eqb o "0") && String.prefix "0" o then false
  else Nat.leb (fold_left (fun acc c => acc * 10 + (code c - 48)) (list_ascii_of_string o) 0) 255.

(** [IPv4Address(s)] succeeds. *)
Definition ipv4_ok (s : string) : bool :=
  negb (contains_char "/" s) && negb (String.eqb s EmptyString)
  && (let octets := str_split "." s in
      Nat.eqb (List.length octets) 4 && forallb ipv4_octet_ok octets).

(** [IPv6Address._parse_hextet] succeeds (an empty hextet fails in
    [int(_, 16)]). *)
Definition hextet_ok (h : string) : bool :=
  all_chars is_hex_digit h && Nat.leb (String.length h) 4
  && negb (String.eqb h EmptyString).

(** The indices [i] in [range(1, len(parts) - 1)] with [parts[i]] empty,
    given [parts[1:]] and [i = 1]. *)
Fixpoint empty_inner_positions (i : nat) (parts : list string) : list nat :=
  match parts with
  | [] | [_] => []
  | p :: rest =>
      (if String.eqb p EmptyString then [i] else []) ++ empty_inner_positions (S i) rest
  end.

(** [IPv6Address._ip_int_from_string] succeeds on the address part. *)
Definition ipv6_addr_ok (s : string) : bool :=
  if String.eqb s EmptyString then false else
  let parts0 := str_split ":" s in
  if Nat.ltb (List.length parts0) 3 then false else
  let last0 := last parts0 EmptyString in
  let embedded := contains_char "." last0 in
  if embedded && negb (ipv4_ok last0) then false else
  let parts := if embedded then removelast parts0 ++ ["0"; "0"] else parts0 in
  let n := List.length parts in
  if Nat.ltb 9 n then false else
  match empty_inner_positions 1 (tl parts) with
  | [] =>
      Nat.eqb n 8 && forallb hextet_ok parts
  | [skip] =>
      let hi := if String.eqb (hd EmptyString parts) EmptyString then pred skip else skip in
      let hi_bad := String.eqb (hd EmptyString parts) EmptyString && negb (Nat.eqb skip 1) in
      let lo0 := n - skip - 1 in
      let lo := if String.eqb (last parts EmptyString) EmptyString then pred lo0 else lo0 in
      let lo_bad := String.eqb (last parts EmptyString) EmptyString && negb (Nat.eqb lo0 1) in
      negb hi_bad && negb lo_bad && Nat.ltb (hi + lo) 8
      && forallb hextet_ok (firstn hi parts)
      && forallb hextet_ok (skipn (n - lo) parts)
  | _ => false
  end.

(** [IPv6Address(s)] succeeds: no '/', an optional non-empty scope id
    after the first '%'. *)
Definition ipv6_ok (s : string) : bool :=
  negb (contains_char "/" s) &&
  match split_once "%" s with
  | None => ipv6_addr_ok s
  | Some (addr, scope) =>
      negb (String.eqb scope EmptyString) && negb (contains_char "%" scope)
      && ipv6_addr_ok addr
  end.

(** The length of the longest prefix of hex digits. *)
Fixpoint hex_run (s : string) : nat :=
  match s with
  | String c r => if is_hex_digit c then S (hex_run r) else O
  | EmptyString => O
  end.

(** [re.match(r"\Av[a-fA-F0-9]+\..+\Z", h)] ([.] does not match a
    newline). *)
Definition ipvfuture_ok (h : string) : bool :=
  match h with
  | String "v" r =>
      let k := hex_run r in
      Nat.ltb 0 k &&
      match str_drop k r with
      | String "." tail =>
          negb (String.eqb tail EmptyString) && negb (contains_char (ascii_of_nat 10) tail)
      | _ => false
      end
  | _ => false
  end.

(** [_check_bracketed_host(h)] does not raise: an IPvFuture literal, or
    an address that [ipaddress.ip_address] reads as IPv6 but not IPv4. *)
Definition bracketed_host_ok (h : string) : bool :=
  if String.prefix "v" h then ipvfuture_ok h
  else negb (ipv4_ok h) && ipv6_ok h.

(** *** urlsplit, urlparse, urlunparse *)

Record parse_result := {
  pr_scheme : string; pr_netloc : string; pr_path : string;
  pr_params : string; pr_query : string; pr_fragment : string }.

(** [_WHATWG_C0_CONTROL_OR_SPACE]: code points 0 to 32. *)
Fixpoint lstrip_c0_or_space (s : string) : string :=
  match s with
  | EmptyString => EmptyString
  | String c r => if Nat.leb (code c) 32 then lstrip_c0_or_space r else s
  end.

(** [_UNSAFE_URL_BYTES_TO_REMOVE]: tab, CR and LF. *)
Definition is_unsafe_url_char (c : ascii) : bool :=
  let n := code c in Nat.eqb n 9 || Nat.eqb n 13 || Nat.eqb n 10.

Definition is_scheme_char (c : ascii) : bool :=
  is_ascii_alpha c || is_ascii_digit c
  || Nat.eqb (code c) 43 || Nat.eqb (code c) 45 || Nat.eqb (code c) 46.

(** The index of the first character satisfying [p], or the length. *)
Fixpoint find_first (p : ascii -> bool) (s : string) : nat :=
  match s with
  | EmptyString => O
  | String c r => if p c then O else S (find_first p r)
  end.

(** [_splitnetloc(url, start)]: the netloc ends at the first '/', '?'
    or '#' from [start] on. *)
Definition splitnetloc (url : string) (start : nat) : string * string :=
  let rest := str_drop start url in
  let delim := find_first (fun c => Ascii.eqb c "/" || Ascii.eqb c "?" || Ascii.eqb c "#") rest in
  (str_take delim rest, str_drop delim rest).

(** [s.partition(c)]: before, whether [c] was found, after. *)
Definition str_partition (c : ascii) (s : string) : string * bool * string :=
  match split_once c s with
  | Some (a, b) => (a, true, b)
  | None => (s, false, EmptyString)
  end.

(** [s.rpartition(c)[2]]. *)
Definition after_last (c : ascii) (s : string) : string :=
  match str_rfind c s with
  | Some i => str_drop (S i) s
  | None => s
  end.

(** [_check_bracketed_netloc(netloc)] does not raise. *)
Definition bracketed_netloc_ok (netloc : string) : bool :=
  let hostname_and_port := after_last "@" netloc in
  match str_partition "[" hostname_and_port with
  | (before_bracket, true, bracketed) =>
      match str_partition "]" bracketed with
      | (hostname, _, port) =>
          String.eqb before_bracket EmptyString
          && (String.eqb port EmptyString || String.prefix ":" port)
          && bracketed_host_ok hostname
      end
  | (_, false, _) =>
      match str_partition ":" hostname_and_port with
      | (hostname, _, _) => bracketed_host_ok hostname
      end
  end.

(** [urlsplit(url)]; [None] when it raises [ValueError].  The final
    [_checknetloc] only inspects netlocs whose NFKC normal form differs,
    and no Latin-1 character normalizes to one of '/', '?', '#', '@',
    ':', so it never raises here. *)
Definition urlsplit (url0 : string)
    : option (string * string * string * string * string) :=
  let url1 := keep_chars (fun c => negb (is_unsafe_url_char c)) (lstrip_c0_or_space url0) in
  let '(scheme, url2) :=
    match str_find ":" url1, url1 with
    | Some (S k), String c0 _ =>
        if is_ascii_alpha c0 && all_chars is_scheme_char (str_take (S k) url1)
        then (py_lower (str_take (S k) url1), str_drop (S (S k)) url1)
        else (EmptyString, url1)
    | _, _ => (EmptyString, url1)
    end in
  let netloc_ok :=
    if String.prefix "//" url2 then
      let '(netloc, rest) := splitnetloc url2 2 in
      let ob := contains_char "[" netloc in
      let cb := contains_char "]" netloc in
      if (ob && negb cb) || (cb && negb ob) then None
      else if ob && cb then
        (if bracketed_netloc_ok netloc then Some (netloc, rest) else None)
      else Some (netloc, rest)
    else Some (EmptyString, url2) in
  match netloc_ok with
  | None => None
  | Some (netloc, url3) =>
      let '(url4, fragment) :=
        match split_once "#" url3 with Some p => p | None => (url3, EmptyString) end in
      let '(url5, query) :=
        match split_once "?" url4 with Some p => p | None => (url4, EmptyString) end in
      Some (scheme, netloc, url5, query, fragment)
  end.

Definition uses_params : list string :=
  [""; "ftp"; "hdl"; "prospero"; "http"; "imap"; "https"; "shttp"; "rtsp";
   "rtsps"; "rtspu"; "sip"; "sips"; "mms"; "sftp"; "tel"].

Definition uses_netloc : list string :=
  [""; "ftp"; "http"; "gopher"; "nntp"; "telnet"; "imap"; "wais"; "file";
   "mms"; "https"; "shttp"; "snews"; "prospero"; "rtsp"; "rtsps"; "rtspu";
   "rsync"; "svn"; "svn+ssh"; "sftp"; "nfs"; "git"; "git+ssh"; "ws"; "wss";
   "itms-services"].

(** [_splitparams(url)]. *)
Definition splitparams (url : string) : string * string :=
  match str_rfind "/" url with
  | Some j =>
      match str_find_from ";" url j with
      | Some i => (str_take i url, str_drop (S i) url)
      | None => (url, EmptyString)
      end
  | None =>
      match str_find ";" url with
      | Some i => (str_take i url, str_drop (S i) url)
      | None => (url, EmptyString)
      end
  end.

(** [urlparse(url)]; [None] when it raises [ValueError]. *)
Definition urlparse (url : string) : option parse_result :=
  match urlsplit url with
  | None => None
  | Some (scheme, netloc, path, query, fragment) =>
      let '(path', params) :=
        if mem scheme uses_params && contains_char ";" path
        then splitparams path else (path, EmptyString) in
      Some {| pr_scheme := scheme; pr_netloc := netloc; pr_path := path';
              pr_params := params; pr_query := query; pr_fragment := fragment |}
  end.

(** [urlunsplit((scheme, netloc, url, query, fragment))]. *)
Definition urlunsplit (scheme netloc url query fragment : string) : string :=
  let url1 :=
    if negb (String.eqb netloc EmptyString) then
      let u := if negb (String.eqb url EmptyString) && negb (String.prefix "/" url)
               then ("/" ++ url)%string else url in
      ("//" ++ netloc ++ u)%string
    else if String.prefix "//" url then ("//" ++ url)%string
    else if negb (String.eqb scheme EmptyString) && mem scheme uses_netloc
            && (String.eqb url EmptyString || String.prefix "/" url)
    then ("//" ++ url)%string
    else url in
  let url2 := if String.eqb scheme EmptyString then url1 else (scheme ++ ":" ++ url1)%string in
  let url3 := if String.eqb query EmptyString then url2 else (url2 ++ "?" ++ query)%string in
  if String.eqb fragment EmptyString then url3 else url3 ++ "#" ++ fragment.

(** [urlunparse(p)]. *)
Definition urlunparse (p : parse_result) : string :=
  let url := if String.eqb (pr_params p) EmptyString then pr_path p
             else (pr_path p ++ ";" ++ pr_params p)%string in
  urlunsplit (pr_scheme p) (pr_netloc p) url (pr_query p) (pr_fragment p).

(** [p._replace(query=q)]. *)
Definition replace_query (p : parse_result) (q : string) : parse_result :=
  {| pr_scheme := pr_scheme p; pr_netloc := pr_netloc p; pr_path := pr_path p;
     pr_params := pr_params p; pr_query := q; pr_fragment := pr_fragment p |}.

(** *** parse_qsl, unquote *)

(** [bytes.split(b'%')] on a list of code points. *)
Fixpoint split_codes (x : nat) (l : list nat) : list (list nat) :=
  match l with
  | [] => [[]]
  | y :: r =>
      if Nat.eqb y x then [] :: split_codes x r
      else match split_codes x r with
           | p :: ps => (y :: p) :: ps
           | [] => [[y]]
           end
  end.

Definition is_hex_code (n : nat) : bool := is_hex_digit (ascii_of_nat n).
Definition hex_code_value (n : nat) : nat := hex_value (ascii_of_nat n).

(** One [item] after a '%' in [unquote_to_bytes]: [_hextobyte[item[:2]]]
    and the rest, or a literal '%' and the item. *)
Definition unquote_item (item : list nat) : list nat :=
  match item with
  | a :: b :: rest =>
      if is_hex_code a && is_hex_code b
      then (hex_code_value a * 16 + hex_code_value b) :: rest
      else 37 :: item
  | _ => 37 :: item
  end.

(** [unquote_to_bytes(s)] on an ASCII string. *)
Definition unquote_to_bytes (s : list nat) : list nat :=
  match split_codes 37 s with
  | [] | [_] => s
  | b0 :: items => b0 ++ concat (map unquote_item items)
  end.

(** How many of the next bytes continue a UTF-8 sequence: the first in
    [lo, hi], the others in [0x80, 0xBF], at most [n]. *)
Fixpoint cont_count (lo hi n : nat) (bs : list nat) : nat :=
  match n, bs with
  | O, _ | _, [] => O
  | S m, c :: r => if between lo hi c then S (cont_count 128 191 m r) else O
  end.

(** For a lead byte: the range of its first continuation byte, the
    number of continuation bytes and the lead's payload bits; [None] for
    a byte that starts no sequence. *)
Definition utf8_lead (b : nat) : option (nat * nat * nat * nat) :=
  if between 194 223 b then Some (128, 191, 1, b - 192)
  else if Nat.eqb b 224 then Some (160, 191, 2, 0)
  else if between 225 236 b then Some (128, 191, 2, b - 224)
  else if Nat.eqb b 237 then Some (128, 159, 2, 13)
  else if between 238 239 b then Some (128, 191, 2, b - 224)
  else if Nat.eqb b 240 then Some (144, 191, 3, 0)
  else if between 241 243 b then Some (128, 191, 3, b - 240)
  else if Nat.eqb b 244 then Some (128, 143, 3, 4)
  else None.

(** [bytes.decode('utf-8', 'replace')]: each maximal ill-formed subpart
    becomes one U+FFFD. *)
Fixpoint utf8_decode (fuel : nat) (bs : list nat) : list nat :=
  match fuel with
  | O => []
  | S f =>
      match bs with
      | [] => []
      | b :: r =>
          if Nat.ltb b 128 then b :: utf8_decode f r
          else match utf8_lead b with
               | None => 65533 :: utf8_decode f r
               | Some (lo, hi, n, bits) =>
                   let k := cont_count lo hi n r in
                   if Nat.eqb k n then
                     fold_left (fun acc c => acc * 64 + (c - 128)) (firstn n r) bits
                       :: utf8_decode f (skipn n r)
                   else 65533 :: utf8_decode f (skipn k r)
               end
      end
  end.

(** [_asciire.finditer]: the string cut into maximal runs, each tagged
    with whether it is ASCII. *)
Fixpoint ascii_runs (l : list nat) : list (bool * list nat) :=
  match l with
  | [] => []
  | c :: r =>
      let a := Nat.ltb c 128 in
      match ascii_runs r with
      | (a', run) :: rest =>
          if Bool.eqb a a' then (a, c :: run) :: rest else (a, [c]) :: (a', run) :: rest
      | [] => [(a, [c])]
      end
  end.

(** [unquote(s)] with UTF-8 and [errors='replace']. *)
Definition unquote (s : pystr) : pystr :=
  if negb (existsb (Nat.eqb 37) s) then s
  else concat (map (fun (x : bool * list nat) =>
                      let '(is_ascii, run) := x in
                      if is_ascii then
                        let bs := unquote_to_bytes run in utf8_decode (List.length bs) bs
                      else run)
                   (ascii_runs s)).

(** [parse_qsl]'s [_unquote]: '+' is a space, then [unquote]. *)
Definition qs_unquote (s : string) : pystr :=
  unquote (map (fun n => if Nat.eqb n 43 then 32 else n) (cps s)).

(** [parse_qsl(qs, keep_blank_values=True)]. *)
Definition parse_qsl (qs : string) : list (pystr * pystr) :=
  if String.eqb qs EmptyString then []
  else flat_map (fun name_value =>
                   if String.eqb name_value EmptyString then []
                   else match str_partition "=" name_value with
                        | (name, _, value) => [(qs_unquote name, qs_unquote value)]
                        end)
                (str_split "&" qs).

(** *** dict and urlencode *)

(** A [dict] with [pystr] keys, in insertion order. *)
Definition pydict := list (pystr * pystr).

Fixpoint codes_eqb (a b : list nat) : bool :=
  match a, b with
  | [], [] => true
  | x :: a', y :: b' => Nat.eqb x y && codes_eqb a' b'
  | _, _ => false
  end.

(** [d[k] = v]: an existing key keeps its position. *)
Definition dict_set (d : pydict) (k v : pystr) : pydict :=
  if existsb (fun '(k', _) => codes_eqb k' k) d
  then map (fun '(k', v') => if codes_eqb k' k then (k', v) else (k', v')) d
  else d ++ [(k, v)].

(** [dict(pairs)]: the first position and the last value of each key. *)
Definition dict_of_pairs (pairs : list (pystr * pystr)) : pydict :=
  fold_left (fun d '(k, v) => dict_set d k v) pairs [].

(** [d.pop(k, None)], the dict afterwards. *)
Definition dict_pop (d : pydict) (k : pystr) : pydict :=
  filter (fun '(k', _) => negb (codes_eqb k' k)) d.

(** [d.get(k)]. *)
Definition dict_get (d : pydict) (k : pystr) : option pystr :=
  option_map snd (find (fun '(k', _) => codes_eqb k' k) d).

Definition utf8_encode (n : nat) : list nat :=
  if Nat.ltb n 128 then [n]
  else if Nat.ltb n 2048 then [192 + n / 64; 128 + n mod 64]
  else if Nat.ltb n 65536 then [224 + n / 4096; 128 + (n / 64) mod 64; 128 + n mod 64]
  else [240 + n / 262144; 128 + (n / 4096) mod 64; 128 + (n / 64) mod 64; 128 + n mod 64].

Definition hex_upper (n : nat) : string :=
  String (ascii_of_nat (if Nat.ltb n 10 then 48 + n else 55 + n)) EmptyString.

(** [_ALWAYS_SAFE]: ASCII letters, digits and '_.-~'. *)
Definition always_safe (b : nat) : bool :=
  is_ascii_alpha (ascii_of_nat b) || between 48 57 b
  || Nat.eqb b 95 || Nat.eqb b 46 || Nat.eqb b 45 || Nat.eqb b 126.

(** [quote_plus(s, safe=<empty>)]: UTF-8 bytes, a space as '+',
    others than the always-safe ones as '%XX'. *)
Definition quote_plus (s : pystr) : string :=
  fold_right (fun b (acc : string) =>
                ((if always_safe b then chr b
                  else if Nat.eqb b 32 then "+"
                  else "%" ++ hex_upper (b / 16) ++ hex_upper (b mod 16)) ++ acc)%string)
             EmptyString (concat (map utf8_encode s)).

(** [urlencode(d, doseq=True)] for a dict of strings. *)
Definition urlencode (d : pydict) : string :=
  String.concat "&" (map (fun '(k, v) => (quote_plus k ++ "=" ++ quote_plus v)%string) d).

(** *** The candidate URLs *)

(** The de-dup loop: keep first occurrences. *)
Fixpoint dedup_from (seen : list string) (vs : list string) : list string :=
  match vs with
  | [] => []
  | v :: rest =>
      if mem v seen then dedup_from seen rest
      else v :: dedup_from (v :: seen) rest
  end.

Definition dedup (vs : list string) : list string := dedup_from [] vs.

(** [_variants_of_sheet_url(u)].  The [try] block appends its three
    variants only when nothing raises; the only exception raised there is
    [urlparse]'s [ValueError]. *)
Definition _variants_of_sheet_url (u : string) : list string :=
  if String.eqb u EmptyString then [] else
  let variants :=
    match urlparse u with
    | None => [u]
    | Some p =>
        let q := dict_of_pairs (parse_qsl (pr_query p)) in
        let q2 := dict_set q (cps "output") (cps "csv") in
        let v2 := urlunparse (replace_query p (urlencode q2)) in
        let q3 := dict_pop q2 (cps "single") in
        let v3 := urlunparse (replace_query p (urlencode q3)) in
        [u; v2; v3; (v2 ++ (if is_substring "?" v2 then "&" else "?") ++ "cachebust=1")%string]
    end in
  dedup variants.

(* ------------------------------------------------------------------ *)
(** ** Configuration, loader entry point and page (app.py lines 17-38,
       130-139, 178-235) *)

(** [DEFAULT_SHEET_URL] (lines 17-19). *)
Definition DEFAULT_SHEET_URL : string :=
  "https://docs.google.com/spreadsheets/d/e/2PACX-1vTC7eGFDO4cthDWrY91NA5O97zFMeNREoy_wE5qDqCY6BcI__tBjsLJuZxAvaUyV48ZMZRJSQP1W-5G/pub?gid=0&single=true&output=csv".

(** Where configuration comes from: [os.environ.get], and [st.secrets]
    ([None] when reading it raises, e.g. without a secrets.toml). *)
Record config_env := {
  environ : string -> option string;
  secrets : option (string -> option string) }.

(** [get_config_value(key, default)] (lines 21-36): the value and its
    source label. *)
Definition get_config_value (e : config_env) (key default : string) : string * string :=
  let v := environ e key in
  if truthy v then (match v with Some x => x | None => EmptyString end, "env")
  else
    match secrets e with
    | Some get =>
        let v := get key in
        if truthy v then (match v with Some x => x | None => EmptyString end, "secrets")
        else (default, "default")
    | None => (default, "default")
    end.

(** [load_data_with_fallbacks()] (lines 130-181) for the configured
    [SHEET_URL]; the [st.cache_data] memoization does not change the
    result. *)
Definition load_data_with_fallbacks (fetch : string -> fetch_outcome)
  (read_csv : string -> option (list string * list (list cell)))
  (sheet_url : string) : load_result :=
  fetch_loop fetch read_csv (_variants_of_sheet_url sheet_url) [] None.

(** [str.isprintable()] on a Latin-1 code point. *)
Definition py_printable (n : nat) : bool :=
  between 32 126 n || (between 161 255 n && negb (Nat.eqb n 173)).

Definition hex_lower (n : nat) : string :=
  String (ascii_of_nat (if Nat.ltb n 10 then 48 + n else 87 + n)) EmptyString.

(** One character of [repr(s)] quoted with [q]. *)
Definition repr_char (q : ascii) (c : ascii) : string :=
  let n := code c in
  if Ascii.eqb c q || Nat.eqb n 92 then String "\" (String c EmptyString)
  else if Nat.eqb n 9 then "\t"
  else if Nat.eqb n 10 then "\n"
  else if Nat.eqb n 13 then "\r"
  else if py_printable n then String c EmptyString
  else ("\x" ++ hex_lower (n / 16) ++ hex_lower (n mod 16))%string.

(** [repr(s)] for a string: single quotes unless [s] holds a single
    quote and no double quote. *)
Definition py_repr (s : string) : string :=
  let q := if contains_char "'" s && negb (contains_char (ascii_of_nat 34) s)
           then ascii_of_nat 34 else "'"%char in
  (String q EmptyString
   ++ String.concat EmptyString (map (repr_char q) (list_ascii_of_string s))
   ++ String q EmptyString)%string.

(** [str(l)] for a list of strings. *)
Definition py_list_repr (l : list string) : string :=
  ("[" ++ String.concat ", " (map py_repr l) ++ "]")%string.

(** The error message of a failed load (lines 152 and 178-180); a
    request exception prints as its message. *)
Definition load_error_message (err : load_error) : string :=
  match err with
  | NoPincodeColumn cols =>
      ("No pincode-like column found. Columns: " ++ py_list_repr cols)%string
  | CouldNotFetch None => "Could not fetch CSV from Google Sheets."
  | CouldNotFetch (Some e) =>
      ("Could not fetch CSV from Google Sheets." ++ " Last error: " ++ e)%string
  end.



(** *** Observations used in the statements below *)

(** The [attempts] a load result carries. *)
Definition result_attempts (r : load_result) : list attempt :=
  match r with
  | LoadOk _ _ a | LoadFail a _ | LoadCrash a => a
  end.

(** The [attempts] entry the loop appends for [u]. *)
Definition attempt_of (fetch : string -> fetch_outcome) (u : string) : attempt :=
  match fetch u with
  | FResp status _ => (u, AStatus status)
  | FExc name _ => (u, AExc name)
  end.

(** The message of the last request exception among [urls], starting
    from [le]. *)
Definition last_exception (fetch : string -> fetch_outcome) (urls : list string)
  (le : option string) : option string :=
  fold_left (fun acc u => match fetch u with FExc _ m => Some m | FResp _ _ => acc end) urls le.

(** The value of the last pair with key [k]. *)
Definition last_value (pairs : list (pystr * pystr)) (k : pystr) : option pystr :=
  fold_left (fun acc '(k', v) => if codes_eqb k' k then Some v else acc) pairs None.

(* ------------------------------------------------------------------ *)
(** ** Sample sheet (the spec's end-to-end scenarios A and B) *)

Definition sample_headers : list string :=
  ["Pin Code"; "4W Tyre Order"; "4W Battery Order"; "2W Tyre Order";
   "2W Battery Order"; "Remark"].

Definition sample_rows : list (list cell) :=
  [[Some "400001"; Some "Yes"; Some "No"; Some "No"; Some "No"; Some "-"];
   [Some "110001"; Some "No"; Some "No"; Some "No"; Some "No"; Some "-"]].

Definition empty_frame : frame := {| columns := []; rows := [] |}.

Definition sample_load : load_result := process_table sample_headers sample_rows [].

Definition sample_df : frame :=
  match sample_load with LoadOk df _ _ => df | _ => empty_frame end.

Definition sample_resolved : list (service * string) :=
  match sample_load with LoadOk _ res _ => res | _ => [] end.

(** A sheet with a drifted pincode header, a prefixed pincode, an empty
    pincode cell and only one service column. *)
Definition messy_headers : list string := ["Postal_Code"; "4W Tyre Order"].

Definition messy_rows : list (list cell) :=
  [[Some "INV400 001"; Some "Yes"]; [None; Some "no"]].

Definition messy_load : load_result := process_table messy_headers messy_rows [].

Definition messy_df : frame :=
  match messy_load with LoadOk df _ _ => df | _ => empty_frame end.

Definition messy_resolved : list (service * string) :=
  match messy_load with LoadOk _ res _ => res | _ => [] end.

(** A source whose first candidate serves an HTML error page and whose
    second serves a CSV body without any pincode-like header. *)
Definition demo_csv : string :=
  "Area,Zone" ++ String (ascii_of_nat 10) EmptyString ++ "x,y".

Definition demo_fetch (u : string) : fetch_outcome :=
  if String.eqb u "https://example.org/a" then FResp 200 "<html>error</html>"
  else FResp 200 demo_csv.

Definition demo_read_csv (t : string) : option (list string * list (list cell)) :=
  if String.eqb t demo_csv then Some (["Area"; "Zone"], [[Some "x"; Some "y"]]) else None.

(** A network on which the request for /t times out, /n answers 404,
    /r has its connection reset, and every other URL answers 200 with
    an HTML page. *)
Definition flaky_fetch (u : string) : fetch_outcome :=
  if String.eqb u "https://example.org/t" then FExc "ConnectTimeout" "timed out"
  else if String.eqb u "https://example.org/n" then FResp 404 "Not found"
  else if String.eqb u "https://example.org/r" then FExc "ConnectionError" "connection reset"
  else FResp 200 "<html>error</html>".

Definition flaky_urls : list string :=
  ["https://example.org/t"; "https://example.org/n"; "https://example.org/r";
   "https://example.org/a"].







(** A sheet whose 4W tyre column is headed "4W Tyre Order Notes". *)
Definition notes_load : load_result :=
  process_table ["Pincode"; "4W Tyre Order Notes"] [[Some "400001"; Some "Yes"]] [].

Definition notes_df : frame :=
  match notes_load with LoadOk df _ _ => df | _ => empty_frame end.

Definition notes_resolved : list (service * string) :=
  match notes_load with LoadOk _ res _ => res | _ => [] end.

(** A sheet with a remark column whose cell is empty in the only row. *)
Definition blank_remark_load : load_result :=
  process_table ["Pincode"; "4W Tyre Order"; "Remark"] [[Some "400001"; Some "Yes"; None]] [].

Definition blank_remark_df : frame :=
  match blank_remark_load with LoadOk df _ _ => df | _ => empty_frame end.

Definition blank_remark_resolved : list (service * string) :=
  match blank_remark_load with LoadOk _ res _ => res | _ => [] end.










(** A sheet with both a "Notes" and a "Remark" column. *)
Definition dup_remark_load : load_result :=
  process_table ["Pincode"; "4W Tyre Order"; "Notes"; "Remark"]
                [[Some "400001"; Some "Yes"; Some "n1"; Some "r1"]] [].

Definition dup_remark_df : frame :=
  match dup_remark_load with LoadOk df _ _ => df | _ => empty_frame end.

Definition dup_remark_resolved : list (service * string) :=
  match dup_remark_load with LoadOk _ res _ => res | _ => [] end.


(* ------------------------------------------------------------------ *)
(** ** Proof toolkit *)

Lemma yes_at_spec df row col :
  yes_at df row col = true
  <-> (col_count (columns df) col <= 1)%nat /\ py_lower (py_strip (row_get_str df row col)) = "yes".
Proof.
  unfold yes_at, row_get, row_get_str.
  destruct (col_index (columns df) col) as [i|].
  - destruct (Nat.ltb 1 (col_count (columns df) col)) eqn:L.
    + apply Nat.ltb_lt in L. split; [discriminate | lia].
    + apply Nat.ltb_ge in L. rewrite String.eqb_eq. tauto.
  - split; [discriminate | intros [_ H]; discriminate].
Qed.


Lemma yes_at_first df row col :
  yes_at df row col = true -> py_lower (py_strip (row_get_str df row col)) = "yes".
Proof. intros H. apply yes_at_spec in H. apply H. Qed.

(** The check logic reaches [evaluate_row] for a valid pin, a single
    "pincode" column and the first matching row [row]. *)
Lemma check_reaches_row df res svc input row :
  String.length (_digits_only input) = 6 ->
  col_count (columns df) "pincode" = 1 ->
  find (fun r => String.eqb (row_get_str df r "pincode") (_digits_only input)) (rows df)
    = Some row ->
  check df res svc input = evaluate_row df res svc (_digits_only input) row.
Proof.
  intros Hlen Hc Hfind. unfold check. rewrite Hlen, Hc. simpl. rewrite Hfind. reflexivity.
Qed.

Ltac case_ifs :=
  repeat match goal with
         | |- context [if ?b then _ else _] => destruct b eqn:?
         | |- context [match str_or_empty ?v with _ => _ end] => destruct (str_or_empty v)
         end.

Lemma evaluate_row_serviceable df res svc pin row :
  In (MsgServiceable svc pin) (evaluate_row df res svc pin row)
  <-> yes_at df row (service_col res svc) = true.
Proof.
  unfold evaluate_row. destruct (yes_at df row (service_col res svc)).
  - split; [reflexivity | intros _; left; reflexivity].
  - simpl. split; [intros [H | []]; discriminate | discriminate].
Qed.



Lemma find_app_first {A} (p : A -> bool) pre x post :
  Forall (fun y => p y = false) pre -> p x = true ->
  find p (pre ++ x :: post) = Some x.
Proof.
  induction pre as [|y pre IH]; intros Hpre Hx; simpl.
  - rewrite Hx. reflexivity.
  - inversion Hpre as [|? ? Hy Hrest]; subst. rewrite Hy. apply IH; assumption.
Qed.

Lemma find_none_all {A} (p : A -> bool) l :
  find p l = None <-> Forall (fun y => p y = false) l.
Proof.
  induction l as [|y l IH]; simpl.
  - split; auto.
  - destruct (p y) eqn:Hy.
    + split; [discriminate | intros H; inversion H; congruence].
    + rewrite IH. split; [intros; constructor; auto | intros H; inversion H; auto].
Qed.

(* ------------------------------------------------------------------ *)
(** ** Header normalization *)

(** C1: idempotence of [_normalize_header] fails on the header
    ["a - b"]: the dash is removed after whitespace runs were collapsed,
    leaving two spaces, which a second normalization collapses. *)
Theorem normalize_header_not_idempotent :
  _normalize_header "a - b" = "a  b" /\
  _normalize_header (_normalize_header "a - b") = "a b".
Proof. split; reflexivity. Qed.

(* ------------------------------------------------------------------ *)
(** ** Serviceability of the selected row *)


Example sample_scenario_A :
  check sample_df sample_resolved S4W_Tyre "400001"
  = [MsgServiceable S4W_Tyre "400001"; MsgOnly4WTyre].
Proof. vm_compute. reflexivity. Qed.

Example sample_scenario_B :
  check sample_df sample_resolved S4W_Tyre "110001"
  = [MsgNotServiceable S4W_Tyre "110001"].
Proof. vm_compute. reflexivity. Qed.

Example yes_values :
  map (fun v => yes_at {| columns := ["c"]; rows := [] |} [Some v] "c")
      ["Yes "; "YES"; "no"; EmptyString; "-"; "maybe"]
  = [true; true; false; false; false; false].
Proof. vm_compute. reflexivity. Qed.






(* ------------------------------------------------------------------ *)
(** ** Pincode column resolution *)

(** C4: the exact tier returns the first synonym (in list order) that is
    a header; when no synonym is a header, the fuzzy tier returns the
    first header (in column order) containing both "pin" and "code";
    when neither matches, there is no pincode column. *)
Theorem resolve_pincode_two_tier (cols : list string) :
  (forall pre t post,
     PINCODE_SYNONYMS = pre ++ t :: post ->
     In t cols ->
     (forall u, In u pre -> ~ In u cols) ->
     _resolve_pincode_col cols = Some t)
  /\
  ((forall t, In t PINCODE_SYNONYMS -> ~ In t cols) ->
   forall pre c post,
     cols = pre ++ c :: post ->
     is_substring "pin" c = true -> is_substring "code" c = true ->
     (forall d, In d pre -> is_substring "pin" d = false \/ is_substring "code" d = false) ->
     _resolve_pincode_col cols = Some c)
  /\
  ((forall t, In t PINCODE_SYNONYMS -> ~ In t cols) ->
   (forall d, In d cols -> is_substring "pin" d = false \/ is_substring "code" d = false) ->
   _resolve_pincode_col cols = None).
Proof.
  assert (Hmem : forall t, mem t cols = true <-> In t cols).
  { intros t. unfold mem. rewrite existsb_exists. split.
    - intros [x [Hx Heq]]. apply String.eqb_eq in Heq. subst. exact Hx.
    - intros H. exists t. split; [exact H | apply String.eqb_refl]. }
  assert (Hnone : (forall t, In t PINCODE_SYNONYMS -> ~ In t cols) ->
                  find (fun t => mem t cols) PINCODE_SYNONYMS = None).
  { intros H. apply find_none_all. apply Forall_forall. intros t Ht.
    destruct (mem t cols) eqn:E; [|reflexivity].
    exfalso. apply (H t Ht). apply Hmem. exact E. }
  split; [|split].
  - intros pre t post Hsyn Ht Hpre.
    unfold _resolve_pincode_col, _guess_col.
    rewrite Hsyn, (find_app_first _ pre t post).
    + simpl.
      assert (Hne : t <> EmptyString).
      { intros ->. assert (In EmptyString PINCODE_SYNONYMS) as Hin
          by (rewrite Hsyn; apply in_or_app; right; left; reflexivity).
        simpl in Hin. intuition discriminate. }
      destruct (String.eqb t EmptyString) eqn:E; [apply String.eqb_eq in E; contradiction|].
      reflexivity.
    + apply Forall_forall. intros u Hu.
      destruct (mem u cols) eqn:E; [|reflexivity].
      exfalso. apply (Hpre u Hu). apply Hmem. exact E.
    + apply Hmem. exact Ht.
  - intros Hsyn pre c post Hcols Hpin Hcode Hpre.
    unfold _resolve_pincode_col, _guess_col. rewrite (Hnone Hsyn). simpl.
    rewrite Hcols. apply find_app_first.
    + apply Forall_forall. intros d Hd. simpl.
      destruct (Hpre d Hd) as [E | E]; rewrite E; [reflexivity | apply andb_false_r].
    + simpl. rewrite Hpin, Hcode. reflexivity.
  - intros Hsyn Hfz.
    unfold _resolve_pincode_col, _guess_col. rewrite (Hnone Hsyn). simpl.
    apply find_none_all. apply Forall_forall. intros d Hd. simpl.
    destruct (Hfz d Hd) as [E | E]; rewrite E; [reflexivity | apply andb_false_r].
Qed.

Lemma resolve_pincode_two_tier_witness :
  _resolve_pincode_col ["pin code"; "pincode"] = Some "pincode" /\
  _resolve_pincode_col ["area"; "pin code no"] = Some "pin code no".
Proof.
  split.
  - refine (proj1 (resolve_pincode_two_tier ["pin code"; "pincode"]) [] "pincode"
              (List.tl PINCODE_SYNONYMS) eq_refl _ _).
    + right. left. reflexivity.
    + intros u [].
  - refine (proj1 (proj2 (resolve_pincode_two_tier ["area"; "pin code no"])) _
              ["area"] "pin code no" [] eq_refl eq_refl eq_refl _).
    + intros t Ht Hin. simpl in Ht, Hin.
      intuition (subst; discriminate).
    + intros d [<- | []]. left. reflexivity.
Defined.

Lemma evaluate_row_no_invalid df res svc pin row :
  ~ In MsgInvalidPincode (evaluate_row df res svc pin row).
Proof.
  unfold evaluate_row. case_ifs; simpl; intuition discriminate.
Qed.

(* ------------------------------------------------------------------ *)
(** ** Query-time validation and row selection *)

(** C8: a pincode input whose digits do not number exactly 6 gives the
    invalid-input message and nothing else, whatever the table (no
    lookup); a 6-digit input never gives it. *)
Theorem invalid_pincode_rejected_before_lookup df res svc input :
  (String.length (_digits_only input) <> 6 ->
   check df res svc input = [MsgInvalidPincode])
  /\
  (String.length (_digits_only input) = 6 ->
   ~ In MsgInvalidPincode (check df res svc input)).
Proof.
  unfold check. split; intros Hlen.
  - apply Nat.eqb_neq in Hlen. rewrite Hlen. reflexivity.
  - rewrite Hlen. simpl.
    destruct (negb (Nat.eqb (col_count (columns df) "pincode") 1));
      [simpl; intuition discriminate|].
    destruct (find _ (rows df)) as [row|].
    + apply evaluate_row_no_invalid.
    + simpl. intuition discriminate.
Qed.

Lemma invalid_pincode_rejected_before_lookup_witness :
  check sample_df sample_resolved S4W_Tyre "40000" = [MsgInvalidPincode] /\
  ~ In MsgInvalidPincode (check sample_df sample_resolved S4W_Tyre "999999").
Proof.
  split.
  - apply (proj1 (invalid_pincode_rejected_before_lookup sample_df sample_resolved
                    S4W_Tyre "40000")). vm_compute. discriminate.
  - apply (proj2 (invalid_pincode_rejected_before_lookup sample_df sample_resolved
                    S4W_Tyre "999999")). vm_compute. reflexivity.
Defined.




(* ------------------------------------------------------------------ *)
(** ** Frame lemmas *)

Lemma nth_app_repeat_none (r : list cell) n i :
  nth i (r ++ repeat None n) None = nth i r None.
Proof.
  destruct (Nat.lt_ge_cases i (length r)) as [H|H].
  - apply app_nth1. exact H.
  - rewrite app_nth2 by exact H. rewrite nth_repeat.
    symmetry. apply nth_overflow. exact H.
Qed.

Lemma nth_row_pad n r i :
  i < n -> nth i (row_pad n r) None = nth i r None.
Proof.
  intros H. unfold row_pad. rewrite nth_firstn.
  apply Nat.ltb_lt in H. rewrite H. apply nth_app_repeat_none.
Qed.

Lemma length_row_pad n r : length (row_pad n r) = n.
Proof.
  unfold row_pad. rewrite length_firstn, length_app, repeat_length. lia.
Qed.

Lemma nth_list_set_other {A} (l : list A) i j x d :
  i <> j -> nth i (list_set j x l) d = nth i l d.
Proof.
  revert i j. induction l as [|y l IH]; intros i j Hij; [destruct j; reflexivity|].
  destruct j as [|j], i as [|i]; simpl; try reflexivity; try congruence.
  apply IH. congruence.
Qed.

Lemma nth_list_set_same {A} (l : list A) i x d :
  i < length l -> nth i (list_set i x l) d = x.
Proof.
  revert i. induction l as [|y l IH]; intros i Hi; simpl in Hi; [lia|].
  destruct i as [|i]; simpl; [reflexivity|]. apply IH. lia.
Qed.

Lemma col_index_nth_error cols c i :
  col_index cols c = Some i -> nth_error cols i = Some c.
Proof.
  revert i. induction cols as [|d cols IH]; intros i H; simpl in H; [discriminate|].
  destruct (String.eqb d c) eqn:E.
  - inversion H; subst. apply String.eqb_eq in E. subst. reflexivity.
  - destruct (col_index cols c) as [k|] eqn:Ek; simpl in H; [|discriminate].
    inversion H; subst. simpl. apply IH. reflexivity.
Qed.

Lemma col_index_lt cols c i : col_index cols c = Some i -> i < length cols.
Proof.
  intros H. apply col_index_nth_error in H.
  apply nth_error_Some. congruence.
Qed.

Lemma col_index_distinct cols c c' i j :
  col_index cols c = Some i -> col_index cols c' = Some j -> c <> c' -> i <> j.
Proof.
  intros Hi Hj Hne ->. apply col_index_nth_error in Hi, Hj. congruence.
Qed.

Lemma col_index_app_found cols extra c i :
  col_index cols c = Some i -> col_index (cols ++ extra) c = Some i.
Proof.
  revert i. induction cols as [|d cols IH]; intros i H; simpl in *; [discriminate|].
  destruct (String.eqb d c); [exact H|].
  destruct (col_index cols c) as [k|]; simpl in H; [|discriminate].
  inversion H; subst. rewrite (IH k eq_refl). reflexivity.
Qed.

Lemma col_index_none_mem cols c : mem c cols = false -> col_index cols c = None.
Proof.
  induction cols as [|d cols IH]; simpl; intros H; [reflexivity|].
  apply orb_false_iff in H as [H1 H2].
  rewrite String.eqb_sym, H1. rewrite IH by exact H2. reflexivity.
Qed.

Lemma col_index_app_last cols c :
  col_index cols c = None -> col_index (cols ++ [c]) c = Some (length cols).
Proof.
  induction cols as [|d cols IH]; simpl; intros H.
  - rewrite String.eqb_refl. reflexivity.
  - destruct (String.eqb d c); [discriminate|].
    destruct (col_index cols c); [discriminate|]. rewrite IH by reflexivity. reflexivity.
Qed.

Lemma col_index_rename cols old new c :
  c <> old -> c <> new ->
  col_index (map (fun d => if String.eqb d old then new else d) cols) c = col_index cols c.
Proof.
  intros H1 H2. induction cols as [|d cols IH]; simpl; [reflexivity|].
  rewrite IH. destruct (String.eqb d old) eqn:E.
  - apply String.eqb_eq in E. subst d.
    destruct (String.eqb new c) eqn:E1; [apply String.eqb_eq in E1; congruence|].
    destruct (String.eqb old c) eqn:E2; [apply String.eqb_eq in E2; congruence|].
    reflexivity.
  - reflexivity.
Qed.

(** Renaming [old] to a label absent from the frame moves the first
    position of [old] to the new label. *)
Lemma col_index_rename_to_fresh cols old new :
  mem new cols = false ->
  col_index (map (fun d => if String.eqb d old then new else d) cols) new
  = col_index cols old.
Proof.
  induction cols as [|d cols IH]; simpl; intros H; [reflexivity|].
  apply orb_false_iff in H as [H1 H2].
  destruct (String.eqb d old) eqn:E.
  - rewrite String.eqb_refl. reflexivity.
  - rewrite String.eqb_sym, H1. rewrite IH by exact H2. reflexivity.
Qed.

(** Column [i] of every row is unchanged from [df] to [df']. *)
Definition keeps (i : nat) (df df' : frame) : Prop :=
  Forall2 (fun r r' => nth i r' None = nth i r None) (rows df) (rows df').

Lemma keeps_refl i df : keeps i df df.
Proof.
  unfold keeps. induction (rows df); constructor; auto.
Qed.

Lemma keeps_trans i df1 df2 df3 : keeps i df1 df2 -> keeps i df2 df3 -> keeps i df1 df3.
Proof.
  unfold keeps. generalize (rows df1) (rows df2) (rows df3). clear.
  intros l1 l2 l3 H12. revert l3. induction H12; intros l3 H23; inversion H23; subst.
  - constructor.
  - constructor; [congruence | auto].
Qed.

Lemma Forall2_map_self {A} (P : A -> A -> Prop) (f : A -> A) l :
  (forall x, P x (f x)) -> Forall2 P l (map f l).
Proof. intros H. induction l; simpl; constructor; auto. Qed.

(** Setting another column keeps column [i]. *)
Lemma df_set_const_keeps df c v c0 i :
  col_index (columns df) c0 = Some i -> c <> c0 ->
  col_index (columns (df_set_const df c v)) c0 = Some i
  /\ keeps i df (df_set_const df c v).
Proof.
  intros Hi Hne. pose proof (col_index_lt _ _ _ Hi) as Hlt.
  unfold keeps, df_set_const. destruct (col_index (columns df) c) as [j|] eqn:Ej; simpl.
  - split; [exact Hi|]. apply Forall2_map_self. intros r.
    rewrite nth_list_set_other by (apply (col_index_distinct _ _ _ _ _ Hi Ej); congruence).
    apply nth_row_pad. exact Hlt.
  - split; [apply col_index_app_found; exact Hi|]. apply Forall2_map_self. intros r.
    rewrite app_nth1 by (rewrite length_row_pad; exact Hlt).
    apply nth_row_pad. exact Hlt.
Qed.

(** Setting an absent column appends it, with the value in every row. *)
Lemma df_set_const_new df c v :
  col_index (columns df) c = None ->
  col_index (columns (df_set_const df c v)) c = Some (length (columns df))
  /\ Forall (fun r => nth (length (columns df)) r None = Some v) (rows (df_set_const df c v)).
Proof.
  intros Hn. unfold df_set_const. rewrite Hn. simpl. split.
  - apply col_index_app_last. exact Hn.
  - apply Forall_map. apply Forall_forall. intros r _.
    rewrite app_nth2 by (rewrite length_row_pad; lia).
    rewrite length_row_pad, Nat.sub_diag. reflexivity.
Qed.

Lemma df_rename_keeps df old new c :
  c <> old -> c <> new ->
  col_index (columns (df_rename df old new)) c = col_index (columns df) c
  /\ rows (df_rename df old new) = rows df.
Proof. intros H1 H2. split; [apply col_index_rename; assumption | reflexivity]. Qed.

Lemma keeps_Forall_const i v df df' :
  keeps i df df' ->
  Forall (fun r => nth i r None = Some v) (rows df) ->
  Forall (fun r => nth i r None = Some v) (rows df').
Proof.
  unfold keeps. generalize (rows df) (rows df'). intros l l' H.
  induction H; intros Hf; inversion Hf; subst; constructor; [congruence | auto].
Qed.

Lemma keeps_Forall2_value {B} i (g : B -> cell) (src : list B) df df' :
  Forall2 (fun raw r => nth i r None = g raw) src (rows df) ->
  keeps i df df' ->
  Forall2 (fun raw r => nth i r None = g raw) src (rows df').
Proof.
  unfold keeps. generalize (rows df) (rows df'). intros l l2 H1. revert l2.
  induction H1; intros l2 H2; inversion H2; subst; constructor; [congruence | auto].
Qed.

Lemma nth_map_fields cols c f r i :
  nth_error cols i = Some c -> i < length r ->
  nth i (map_fields cols c f r) None = Some (f (cell_str (nth i r None))).
Proof.
  revert r i. induction cols as [|d cols IH]; intros r i Hn Hl; [destruct i; discriminate|].
  destruct r as [|x r]; simpl in Hl; [lia|].
  destruct i as [|i]; simpl in Hn |- *.
  - injection Hn as ->. rewrite String.eqb_refl. reflexivity.
  - apply IH; [exact Hn | lia].
Qed.

Lemma df_map_col_spec df c f i :
  col_index (columns df) c = Some i ->
  columns (df_map_col df c f) = columns df
  /\ Forall2 (fun r r' => nth i r' None = Some (f (cell_str (nth i r None))))
             (rows df) (rows (df_map_col df c f)).
Proof.
  intros Hi. pose proof (col_index_lt _ _ _ Hi) as Hlt.
  pose proof (col_index_nth_error _ _ _ Hi) as Hn.
  unfold df_map_col. rewrite Hi. simpl. split; [reflexivity|].
  apply Forall2_map_self. intros r.
  rewrite nth_map_fields by (exact Hn || (rewrite length_row_pad; exact Hlt)).
  rewrite nth_row_pad by exact Hlt. reflexivity.
Qed.

Lemma mem_In t cols : mem t cols = true <-> In t cols.
Proof.
  unfold mem. rewrite existsb_exists. split.
  - intros [x [Hx Heq]]. apply String.eqb_eq in Heq. subst. exact Hx.
  - intros H. exists t. split; [exact H | apply String.eqb_refl].
Qed.

Lemma col_index_In cols c : In c cols -> exists i, col_index cols c = Some i.
Proof.
  induction cols as [|d cols IH]; simpl; intros H; [contradiction|].
  destruct (String.eqb d c) eqn:E; [eauto|].
  destruct H as [-> | H]; [rewrite String.eqb_refl in E; discriminate|].
  destruct (IH H) as [i Hi]. rewrite Hi. simpl. eauto.
Qed.

(* ------------------------------------------------------------------ *)
(** ** Facts about the resolved pincode column *)

Lemma is_substring_empty_hay needle :
  needle <> EmptyString -> is_substring needle EmptyString = false.
Proof. destruct needle; [congruence | reflexivity]. Qed.

Lemma resolve_pincode_In cols pc :
  _resolve_pincode_col cols = Some pc -> In pc cols /\ pc <> EmptyString.
Proof.
  unfold _resolve_pincode_col, _guess_col.
  destruct (find (fun t => mem t cols) PINCODE_SYNONYMS) as [t|] eqn:Ef; simpl.
  - destruct (negb (String.eqb t EmptyString)) eqn:Et; intros H.
    + inversion H; subst. apply find_some in Ef as [_ Hm].
      split; [apply mem_In; exact Hm|].
      intros ->. discriminate.
    + simpl in H. apply find_some in H as [Hin Hp]. split; [exact Hin|].
      intros ->. discriminate.
  - intros H. apply find_some in H as [Hin Hp]. split; [exact Hin|].
    intros ->. discriminate.
Qed.

Lemma resolve_pincode_prefers_pincode cols pc :
  _resolve_pincode_col cols = Some pc -> pc <> "pincode" -> mem "pincode" cols = false.
Proof.
  unfold _resolve_pincode_col, _guess_col, PINCODE_SYNONYMS. simpl.
  destruct (mem "pincode" cols); [|reflexivity]. simpl. congruence.
Qed.

(* ------------------------------------------------------------------ *)
(** ** Facts about service resolution *)

Lemma canonical_inj s s' : canonical s = canonical s' -> s = s'.
Proof. destruct s, s'; simpl; congruence. Qed.

Lemma service_eqb_eq a b : service_eqb a b = true <-> a = b.
Proof. destruct a, b; simpl; split; congruence. Qed.

Lemma resolve_service_none_iff cols s :
  _resolve_service_col cols (canonical s) = None <->
  mem (canonical s) cols = false
  /\ Forall (fun c => forallb (fun tok => is_substring tok c) (py_split (canonical s)) = false) cols.
Proof.
  rewrite <- find_none_all.
  unfold _resolve_service_col, _guess_col. simpl.
  destruct (mem (canonical s) cols) eqn:Em.
  - assert (Ht : truthy (Some (canonical s)) = true) by (destruct s; reflexivity).
    rewrite Ht. split; [discriminate | intros [H _]; discriminate].
  - simpl. destruct s; simpl; split; auto; intros [_ H]; exact H.
Qed.

Lemma service_tokens_distinct s s' :
  s <> s' -> forallb (fun tok => is_substring tok (canonical s')) (py_split (canonical s)) = false.
Proof. destruct s, s'; intros H; try congruence; vm_compute; reflexivity. Qed.

(** Synthetic columns of the other services do not resolve a service. *)
Lemma resolve_service_none_app cols extra s :
  _resolve_service_col cols (canonical s) = None ->
  (forall c, In c extra -> exists s', s' <> s /\ c = canonical s') ->
  _resolve_service_col (cols ++ extra) (canonical s) = None.
Proof.
  rewrite !resolve_service_none_iff. intros [Hm Hf] Hx. split.
  - unfold mem in *. rewrite existsb_app, Hm. simpl.
    destruct (existsb (String.eqb (canonical s)) extra) eqn:E; [|reflexivity].
    apply existsb_exists in E as [c [Hc Heq]]. apply String.eqb_eq in Heq. subst c.
    destruct (Hx _ Hc) as [s' [Hne Heq]]. apply canonical_inj in Heq. congruence.
  - apply Forall_app. split; [exact Hf|]. apply Forall_forall. intros c Hc.
    destruct (Hx _ Hc) as [s' [Hne ->]]. apply service_tokens_distinct. congruence.
Qed.

(** Renaming the pincode column does not resolve a service. *)
Lemma resolve_service_none_rename cols pc s :
  _resolve_service_col cols (canonical s) = None ->
  _resolve_service_col (map (fun d => if String.eqb d pc then "pincode" else d) cols)
    (canonical s) = None.
Proof.
  rewrite !resolve_service_none_iff. intros [Hm Hf]. split.
  - unfold mem in *.
    destruct (existsb _ (map _ cols)) eqn:E; [|reflexivity].
    apply existsb_exists in E as [x [Hx Heq]].
    apply in_map_iff in Hx as [d [<- Hd]].
    destruct (String.eqb d pc).
    + destruct s; discriminate.
    + rewrite <- Hm. symmetry. apply existsb_exists. eauto.
  - apply Forall_map. eapply Forall_impl; [|exact Hf]. intros d Hd.
    destruct (String.eqb d pc); [destruct s; reflexivity | exact Hd].
Qed.

Lemma canonical_no_remark s :
  is_substring "remark" (canonical s) = false /\ is_substring "note" (canonical s) = false
  /\ canonical s <> "remark" /\ canonical s <> "pincode".
Proof. destruct s; vm_compute; repeat split; discriminate. Qed.

(** One step of the service loop, split into its two outcomes. *)
Lemma resolve_services_cons df s rest df' res :
  resolve_services df (s :: rest) = (df', res) ->
  exists df1 c res1,
    resolve_services df1 rest = (df', res1) /\ res = (s, c) :: res1 /\
    ((df1 = df /\ _resolve_service_col (columns df) (canonical s) = Some c)
     \/ (df1 = df_set_const df (canonical s) "no" /\ c = canonical s
         /\ (_resolve_service_col (columns df) (canonical s) = None
             \/ _resolve_service_col (columns df) (canonical s) = Some EmptyString))).
Proof.
  simpl. destruct (_resolve_service_col (columns df) (canonical s)) as [c0|] eqn:Ec.
  - simpl. destruct (String.eqb c0 EmptyString) eqn:Et; simpl.
    + destruct (resolve_services (df_set_const df (canonical s) "no") rest) as [d2 r2] eqn:Er.
      intros H. inversion H; subst. do 3 eexists. split; [exact Er|]. split; [reflexivity|].
      right. apply String.eqb_eq in Et. subst. auto.
    + destruct (resolve_services df rest) as [d2 r2] eqn:Er.
      intros H. inversion H; subst. do 3 eexists. split; [exact Er|]. split; [reflexivity|].
      left. auto.
  - destruct (resolve_services (df_set_const df (canonical s) "no") rest) as [d2 r2] eqn:Er.
    intros H. inversion H; subst. do 3 eexists. split; [exact Er|]. split; [reflexivity|].
    right. auto.
Qed.

Lemma resolve_services_keeps svcs : forall df df' res c i,
  resolve_services df svcs = (df', res) ->
  col_index (columns df) c = Some i ->
  (forall s, In s svcs -> canonical s <> c) ->
  col_index (columns df') c = Some i /\ keeps i df df'.
Proof.
  induction svcs as [|s rest IH]; intros df df' res c i H Hi Hc.
  - simpl in H. inversion H; subst. split; [exact Hi | apply keeps_refl].
  - apply resolve_services_cons in H as (df1 & c1 & res1 & Hr & -> & Hstep).
    assert (H1 : col_index (columns df1) c = Some i /\ keeps i df df1).
    { destruct Hstep as [[-> _] | (-> & _ & _)].
      - split; [exact Hi | apply keeps_refl].
      - apply df_set_const_keeps; [exact Hi | apply Hc; left; reflexivity]. }
    destruct H1 as [Hi1 Hk1].
    destruct (IH df1 df' res1 c i Hr Hi1) as [Hi2 Hk2];
      [intros s' Hs'; apply Hc; right; exact Hs'|].
    split; [exact Hi2 | eapply keeps_trans; eassumption].
Qed.

Lemma service_col_cons_other s c res s' :
  s <> s' -> service_col ((s, c) :: res) s' = service_col res s'.
Proof.
  intros Hne. unfold service_col. simpl.
  destruct (service_eqb s s') eqn:E; [apply service_eqb_eq in E; contradiction | reflexivity].
Qed.

Lemma service_col_cons_same s c res : service_col ((s, c) :: res) s = c.
Proof. unfold service_col. simpl. destruct s; reflexivity. Qed.

Lemma df_set_const_columns df c v :
  columns (df_set_const df c v) = columns df
  \/ columns (df_set_const df c v) = columns df ++ [c].
Proof. unfold df_set_const. destruct (col_index (columns df) c); simpl; auto. Qed.

(** A service that no header resolves is answered from a synthetic
    column holding "no" in every row. *)
Lemma resolve_services_unresolved svcs : NoDup svcs ->
  forall df df' res base extra,
  resolve_services df svcs = (df', res) ->
  columns df = base ++ extra ->
  (forall c, In c extra -> exists s', ~ In s' svcs /\ c = canonical s') ->
  forall s, In s svcs -> _resolve_service_col base (canonical s) = None ->
  service_col res s = canonical s
  /\ exists j, col_index (columns df') (canonical s) = Some j
             /\ Forall (fun r => nth j r None = Some "no") (rows df').
Proof.
  induction svcs as [|s0 rest IH]; intros Hnd df df' res base extra H Hcols Hextra s Hs Hun;
    [destruct Hs|].
  inversion Hnd as [|? ? Hs0 Hnd']; subst.
  assert (Hun0 : forall s1, In s1 (s0 :: rest) ->
                 _resolve_service_col base (canonical s1) = None ->
                 _resolve_service_col (columns df) (canonical s1) = None).
  { intros s1 Hs1 Hu1. rewrite Hcols. apply resolve_service_none_app; [exact Hu1|].
    intros c Hc. destruct (Hextra c Hc) as [s' [Hn' ->]]. exists s'. split; [|reflexivity].
    intros ->. contradiction. }
  apply resolve_services_cons in H as (df1 & c1 & res1 & Hr & -> & Hstep).
  destruct Hs as [<- | Hs].
  - (* the unresolved service is the current one *)
    pose proof (Hun0 s0 (or_introl eq_refl) Hun) as Hnow.
    destruct Hstep as [[_ Hsome] | (-> & -> & _)]; [congruence|].
    rewrite service_col_cons_same. split; [reflexivity|].
    assert (Hnone : col_index (columns df) (canonical s0) = None).
    { apply col_index_none_mem. apply resolve_service_none_iff in Hnow. apply Hnow. }
    destruct (df_set_const_new df (canonical s0) "no" Hnone) as [Hj Hall].
    destruct (resolve_services_keeps rest _ _ _ _ _ Hr Hj) as [Hj' Hk].
    + intros s' Hs' Heq. apply canonical_inj in Heq. subst. contradiction.
    + exists (length (columns df)). split; [exact Hj'|].
      eapply keeps_Forall_const; eassumption.
  - (* a later service *)
    assert (Hne : s0 <> s) by (intros ->; contradiction).
    rewrite service_col_cons_other by exact Hne.
    assert (Hcols1 : exists extra1, columns df1 = base ++ extra1 /\
              (forall c, In c extra1 -> exists s', ~ In s' rest /\ c = canonical s')).
    { destruct Hstep as [[-> _] | (-> & _ & _)].
      - exists extra. split; [exact Hcols|]. intros c Hc.
        destruct (Hextra c Hc) as [s' [Hn' Hc']]. exists s'. split; [|exact Hc'].
        intros Hin. apply Hn'. right. exact Hin.
      - destruct (df_set_const_columns df (canonical s0) "no") as [E | E].
        + exists extra. rewrite E. split; [exact Hcols|]. intros c Hc.
          destruct (Hextra c Hc) as [s' [Hn' Hc']]. exists s'. split; [|exact Hc'].
          intros Hin. apply Hn'. right. exact Hin.
        + exists (extra ++ [canonical s0]). rewrite E, Hcols, app_assoc.
          split; [reflexivity|]. intros c Hc. apply in_app_or in Hc as [Hc | [<- | []]].
          * destruct (Hextra c Hc) as [s' [Hn' Hc']]. exists s'. split; [|exact Hc'].
            intros Hin. apply Hn'. right. exact Hin.
          * exists s0. split; [exact Hs0 | reflexivity]. }
    destruct Hcols1 as (extra1 & Hc1 & Hx1).
    exact (IH Hnd' df1 df' res1 base extra1 Hr Hc1 Hx1 s Hs Hun).
Qed.

Lemma rename_remark_keeps df c :
  is_substring "remark" c = false -> is_substring "note" c = false -> c <> "remark" ->
  col_index (columns (rename_remark df)) c = col_index (columns df) c
  /\ rows (rename_remark df) = rows df.
Proof.
  intros Hr Hn Hne. unfold rename_remark.
  destruct (find _ (columns df)) as [rc|] eqn:Ef; [|split; reflexivity].
  destruct (truthy (Some rc) && negb (String.eqb rc "remark")); [|split; reflexivity].
  apply find_some in Ef as [_ Hp].
  apply df_rename_keeps; [|exact Hne].
  intros ->. rewrite Hr, Hn in Hp. discriminate.
Qed.

Lemma digits_only_digits s :
  forallb is_ascii_digit (list_ascii_of_string (_digits_only s)) = true.
Proof.
  induction s as [|a s IH]; [reflexivity|]. unfold _digits_only in *. simpl.
  destruct (is_ascii_digit a) eqn:E; simpl; [rewrite E|]; exact IH.
Qed.

(** [process_table] on a header row with a pincode column [pc], step by
    step. *)
Lemma process_table_unfold hs rs att pc :
  _resolve_pincode_col (map _normalize_header hs) = Some pc ->
  process_table hs rs att =
  let df0 := {| columns := map _normalize_header hs; rows := rs |} in
  let df1 := df_map_col (if negb (String.eqb pc "pincode") then df_rename df0 pc "pincode" else df0)
                        "pincode" _digits_only in
  LoadOk (rename_remark (fst (resolve_services df1 SERVICES)))
         (snd (resolve_services df1 SERVICES)) att.
Proof.
  intros H. unfold process_table. cbv zeta. cbn [columns]. rewrite H.
  destruct (resolve_pincode_In _ _ H) as [_ Hne].
  match goal with |- context [resolve_services ?d SERVICES] =>
                    destruct (resolve_services d SERVICES) end.
  unfold truthy. destruct (String.eqb pc EmptyString) eqn:E;
    [apply String.eqb_eq in E; contradiction|].
  reflexivity.
Qed.

(** Where the pincode column sits before the values are mapped. *)
Lemma pincode_column_index hs rs pc :
  _resolve_pincode_col (map _normalize_header hs) = Some pc ->
  exists i,
    col_index (map _normalize_header hs) pc = Some i /\
    let df0 := {| columns := map _normalize_header hs; rows := rs |} in
    col_index (columns (if negb (String.eqb pc "pincode") then df_rename df0 pc "pincode" else df0))
      "pincode" = Some i.
Proof.
  intros H. destruct (resolve_pincode_In _ _ H) as [Hin _].
  destruct (col_index_In _ _ Hin) as [i Hi]. exists i. split; [exact Hi|]. simpl.
  destruct (String.eqb pc "pincode") eqn:E; simpl.
  - apply String.eqb_eq in E. subst. exact Hi.
  - rewrite col_index_rename_to_fresh; [exact Hi|].
    apply (resolve_pincode_prefers_pincode _ pc H).
    intros ->. rewrite String.eqb_refl in E. discriminate.
Qed.

Lemma process_table_ok hs rs att :
  _resolve_pincode_col (map _normalize_header hs) <> None ->
  exists df res, process_table hs rs att = LoadOk df res att.
Proof.
  destruct (_resolve_pincode_col (map _normalize_header hs)) as [pc|] eqn:H; [|congruence].
  intros _. rewrite (process_table_unfold _ _ _ _ H). eauto.
Qed.

Lemma process_table_fail hs rs att :
  _resolve_pincode_col (map _normalize_header hs) = None ->
  process_table hs rs att = LoadFail att (NoPincodeColumn (map _normalize_header hs)).
Proof. intros H. unfold process_table. simpl. rewrite H. reflexivity. Qed.

Lemma NoDup_SERVICES : NoDup SERVICES.
Proof. unfold SERVICES. repeat constructor; simpl; intuition discriminate. Qed.

(* ------------------------------------------------------------------ *)
(** ** The loaded table *)

(** C5: after a successful load, the row count is unchanged and the
    pincode key of each row is the digits-only projection of that row's
    raw cell in the resolved pincode column, so it consists of digits only. *)
Theorem stored_pincode_keys_are_digits hs rs att df res att' :
  process_table hs rs att = LoadOk df res att' ->
  exists pc i,
    _resolve_pincode_col (map _normalize_header hs) = Some pc /\
    col_index (map _normalize_header hs) pc = Some i /\
    Forall2 (fun raw r =>
               row_get_str df r "pincode" = _digits_only (cell_str (nth i raw None))
               /\ forallb is_ascii_digit (list_ascii_of_string (row_get_str df r "pincode")) = true)
            rs (rows df).
Proof.
  intros H.
  destruct (_resolve_pincode_col (map _normalize_header hs)) as [pc|] eqn:Hpc;
    [|rewrite process_table_fail in H by exact Hpc; discriminate].
  rewrite (process_table_unfold _ _ _ _ Hpc) in H. cbv zeta in H.
  destruct (pincode_column_index hs rs pc Hpc) as [i [Hi Hi0]]. simpl in Hi0.
  set (dfr := if negb (String.eqb pc "pincode")
              then df_rename {| columns := map _normalize_header hs; rows := rs |} pc "pincode"
              else {| columns := map _normalize_header hs; rows := rs |}) in *.
  assert (Hrows : rows dfr = rs) by (unfold dfr; destruct (negb _); reflexivity).
  destruct (df_map_col_spec dfr "pincode" _digits_only i Hi0) as [Hc1 Hm].
  set (df1 := df_map_col dfr "pincode" _digits_only) in *.
  destruct (resolve_services df1 SERVICES) as [df2 res2] eqn:Hrs. cbn [fst snd] in H.
  inversion H; subst df res att'. clear H.
  destruct (resolve_services_keeps SERVICES df1 df2 res2 "pincode" i Hrs) as [Hi2 Hk];
    [rewrite Hc1; exact Hi0 | intros s _; apply canonical_no_remark|].
  destruct (rename_remark_keeps df2 "pincode") as [Hi3 Hr3];
    [vm_compute; reflexivity | vm_compute; reflexivity | discriminate|].
  exists pc, i. split; [reflexivity|]. split; [exact Hi|].
  rewrite Hr3. rewrite Hrows in Hm.
  pose proof (keeps_Forall2_value i (fun raw => Some (_digits_only (cell_str (nth i raw None))))
                rs df1 df2 Hm Hk) as Hv.
  eapply Forall2_impl; [|exact Hv]. intros raw r Hr. simpl in Hr.
  unfold row_get_str. rewrite Hi3, Hi2. cbv iota beta. unfold cell in *. rewrite Hr. cbn [cell_str].
  split; [reflexivity | apply digits_only_digits].
Qed.

Lemma stored_pincode_keys_are_digits_witness :
  process_table messy_headers messy_rows [] = LoadOk messy_df messy_resolved [] /\
  exists pc i,
    _resolve_pincode_col (map _normalize_header messy_headers) = Some pc /\
    col_index (map _normalize_header messy_headers) pc = Some i /\
    Forall2 (fun raw r =>
               row_get_str messy_df r "pincode" = _digits_only (cell_str (nth i raw None))
               /\ forallb is_ascii_digit
                    (list_ascii_of_string (row_get_str messy_df r "pincode")) = true)
            messy_rows (rows messy_df).
Proof.
  assert (H : process_table messy_headers messy_rows [] = LoadOk messy_df messy_resolved [])
    by (vm_compute; reflexivity).
  split; [exact H|].
  exact (stored_pincode_keys_are_digits messy_headers messy_rows [] messy_df messy_resolved [] H).
Defined.

(** C6: when the pincode column resolves, the load succeeds whatever the
    service headers; a service that no normalized header resolves
    (exactly or fuzzily) is mapped to its canonical name, a column that
    reads "no" in every row, so no query for it is ever serviceable. *)
Theorem unresolved_service_defaults_to_no hs rs att :
  _resolve_pincode_col (map _normalize_header hs) <> None ->
  exists df res,
    process_table hs rs att = LoadOk df res att /\
    forall s, _resolve_service_col (map _normalize_header hs) (canonical s) = None ->
      service_col res s = canonical s
      /\ Forall (fun r => row_get_str df r (canonical s) = "no") (rows df)
      /\ forall input, ~ In (MsgServiceable s (_digits_only input)) (check df res s input).
Proof.
  intros Hok.
  destruct (_resolve_pincode_col (map _normalize_header hs)) as [pc|] eqn:Hpc; [|congruence].
  rewrite (process_table_unfold _ _ _ _ Hpc). cbv zeta.
  set (dfr := if negb (String.eqb pc "pincode")
              then df_rename {| columns := map _normalize_header hs; rows := rs |} pc "pincode"
              else {| columns := map _normalize_header hs; rows := rs |}).
  destruct (pincode_column_index hs rs pc Hpc) as [i [_ Hi0]]. fold dfr in Hi0.
  destruct (df_map_col_spec dfr "pincode" _digits_only i Hi0) as [Hc1 _].
  set (df1 := df_map_col dfr "pincode" _digits_only) in *.
  destruct (resolve_services df1 SERVICES) as [df2 res2] eqn:Hrs. cbn [fst snd].
  exists (rename_remark df2), res2. split; [reflexivity|].
  intros s Hun.
  assert (Hun1 : _resolve_service_col (columns df1) (canonical s) = None).
  { rewrite Hc1. unfold dfr. destruct (negb (String.eqb pc "pincode")); simpl;
      [apply resolve_service_none_rename|]; exact Hun. }
  destruct (resolve_services_unresolved SERVICES NoDup_SERVICES df1 df2 res2
              (columns df1) [] Hrs (eq_sym (app_nil_r _)) (fun c H => False_ind _ H)
              s ltac:(destruct s; simpl; tauto) Hun1) as [Hcol [j [Hj Hall]]].
  destruct (canonical_no_remark s) as (Hr1 & Hr2 & Hr3 & _).
  destruct (rename_remark_keeps df2 (canonical s) Hr1 Hr2 Hr3) as [Hj' Hrows].
  assert (Hno : Forall (fun r => row_get_str (rename_remark df2) r (canonical s) = "no")
                       (rows (rename_remark df2))).
  { rewrite Hrows. eapply Forall_impl; [|exact Hall]. intros r Hr.
    unfold row_get_str. rewrite Hj', Hj. cbv iota beta. unfold cell in *. rewrite Hr.
    reflexivity. }
  split; [exact Hcol|]. split; [exact Hno|].
  intros input Hin. unfold check in Hin.
  destruct (negb (Nat.eqb (String.length (_digits_only input)) 6)).
  - destruct Hin as [Hin | []]. discriminate.
  - destruct (negb (Nat.eqb (col_count (columns (rename_remark df2)) "pincode") 1));
      [destruct Hin as [Hin | []]; discriminate|].
    destruct (find _ (rows (rename_remark df2))) as [row|] eqn:Hf.
    + apply find_some in Hf as [Hrow _].
      apply evaluate_row_serviceable in Hin.
      rewrite Hcol in Hin. apply yes_at_first in Hin.
      rewrite (proj1 (Forall_forall _ _) Hno row Hrow) in Hin. discriminate.
    + destruct Hin as [Hin | []]. discriminate.
Qed.

Lemma unresolved_service_defaults_to_no_witness :
  exists df res,
    process_table messy_headers messy_rows [] = LoadOk df res [] /\
    forall s, _resolve_service_col (map _normalize_header messy_headers) (canonical s) = None ->
      service_col res s = canonical s
      /\ Forall (fun r => row_get_str df r (canonical s) = "no") (rows df)
      /\ forall input, ~ In (MsgServiceable s (_digits_only input)) (check df res s input).
Proof.
  apply unresolved_service_defaults_to_no. vm_compute. discriminate.
Defined.

(** C7: when the first candidate the loop does not move past returns a
    tabular body with no pincode-like header, the whole load fails with
    the normalized headers; a missing pincode column is the only way the
    processing of a tabular body fails. *)
Theorem missing_pincode_column_fails_load fetch read_csv pre u rest txt hs rs att le :
  forallb (passes_over fetch) pre = true ->
  fetch u = FResp 200 txt ->
  _looks_like_csv txt = true ->
  read_csv txt = Some (hs, rs) ->
  _resolve_pincode_col (map _normalize_header hs) = None ->
  (exists attempts,
     fetch_loop fetch read_csv (pre ++ u :: rest) att le
     = LoadFail attempts (NoPincodeColumn (map _normalize_header hs)))
  /\
  (forall hs' rs' att',
     (exists df res, process_table hs' rs' att' = LoadOk df res att')
     \/ (process_table hs' rs' att' = LoadFail att' (NoPincodeColumn (map _normalize_header hs'))
         /\ _resolve_pincode_col (map _normalize_header hs') = None)).
Proof.
  intros Hpre Hu Hcsv Hread Hnone. split.
  - revert att le Hpre. induction pre as [|v pre IH]; intros att le Hpre; simpl.
    + rewrite Hu, Hcsv. simpl. rewrite Hread. eexists. apply process_table_fail. exact Hnone.
    + simpl in Hpre. apply andb_true_iff in Hpre as [Hv Hpre].
      unfold passes_over in Hv. destruct (fetch v) as [st t | n m].
      * apply negb_true_iff in Hv. rewrite Hv. apply IH. exact Hpre.
      * apply IH. exact Hpre.
  - intros hs' rs' att'.
    destruct (_resolve_pincode_col (map _normalize_header hs')) as [pc|] eqn:H.
    + left. apply process_table_ok. congruence.
    + right. split; [apply process_table_fail; exact H | reflexivity].
Qed.

Lemma missing_pincode_column_fails_load_witness :
  exists attempts,
    fetch_loop demo_fetch demo_read_csv
      (["https://example.org/a"] ++ "https://example.org/b" :: []) [] None
    = LoadFail attempts (NoPincodeColumn (map _normalize_header ["Area"; "Zone"])).
Proof.
  refine (proj1 (missing_pincode_column_fails_load demo_fetch demo_read_csv
                   ["https://example.org/a"] "https://example.org/b" [] demo_csv
                   ["Area"; "Zone"] [[Some "x"; Some "y"]] [] None _ _ _ _ _));
    vm_compute; reflexivity.
Defined.

(* ------------------------------------------------------------------ *)
(** ** Candidate URLs *)

Lemma codes_eqb_eq a b : codes_eqb a b = true <-> a = b.
Proof.
  revert b; induction a as [|x a IH]; intros [|y b]; simpl; split; intros H;
    try discriminate; try reflexivity.
  - apply andb_true_iff in H as [H1 H2]. apply Nat.eqb_eq in H1.
    apply IH in H2. subst. reflexivity.
  - injection H as -> ->. rewrite Nat.eqb_refl. apply IH. reflexivity.
Qed.

Lemma codes_eqb_refl a : codes_eqb a a = true.
Proof. apply codes_eqb_eq. reflexivity. Qed.

Lemma find_map_value (d : pydict) k v :
  find (fun '(k', _) => codes_eqb k' k)
       (map (fun '(k', v') => if codes_eqb k' k then (k', v) else (k', v')) d)
  = option_map (fun '(k', _) => (k', v)) (find (fun '(k', _) => codes_eqb k' k) d).
Proof.
  induction d as [|[k' v'] d IH]; simpl; [reflexivity|].
  destruct (codes_eqb k' k) eqn:E; simpl; rewrite ?E; [reflexivity | exact IH].
Qed.

Lemma dict_get_set_same d k v : dict_get (dict_set d k v) k = Some v.
Proof.
  unfold dict_get, dict_set.
  destruct (existsb (fun '(k', _) => codes_eqb k' k) d) eqn:Ex.
  - rewrite find_map_value.
    apply existsb_exists in Ex as [[k1 v1] [Hin Hk]].
    destruct (find (fun '(k', _) => codes_eqb k' k) d) as [[k2 v2]|] eqn:F.
    + reflexivity.
    + exfalso. pose proof (find_none _ _ F (k1, v1) Hin) as Hn. simpl in Hn, Hk. congruence.
  - induction d as [|[k1 v1] d IH]; simpl in *.
    + rewrite codes_eqb_refl. reflexivity.
    + apply orb_false_iff in Ex as [E1 E2]. rewrite E1. exact (IH E2).
Qed.










Lemma dedup_from_spec seen vs :
  NoDup (dedup_from seen vs)
  /\ (forall x, In x (dedup_from seen vs) <-> In x vs /\ ~ In x seen).
Proof.
  revert seen; induction vs as [|v vs IH]; intros seen; simpl.
  - split; [constructor | intros x; tauto].
  - destruct (mem v seen) eqn:M.
    + apply mem_In in M. destruct (IH seen) as [Hn Hi]. split; [exact Hn|].
      intros x. rewrite Hi. split; [tauto|]. intros [[<- | Hx] Hs]; [contradiction | tauto].
    + assert (Mv : ~ In v seen) by (rewrite <- mem_In; congruence).
      destruct (IH (v :: seen)) as [Hn Hi]. split.
      * constructor; [|exact Hn]. rewrite Hi. simpl. tauto.
      * intros x. simpl. rewrite Hi. simpl. split.
        -- intros [<- | [Hx Hs]]; [tauto|]. split; [tauto|]. tauto.
        -- intros [[<- | Hx] Hs]; [tauto|].
           destruct (String.eqb_spec v x) as [<-|Hne]; [tauto|]. right. split; [exact Hx|]. intros [?|?]; [congruence | tauto].
Qed.









(* ------------------------------------------------------------------ *)
(** ** Configuration, fetch loop and page *)

Lemma process_table_attempts hs rs att :
  result_attempts (process_table hs rs att) = att.
Proof.
  destruct (_resolve_pincode_col (map _normalize_header hs)) as [pc|] eqn:H.
  - rewrite (process_table_unfold _ _ _ _ H). reflexivity.
  - rewrite (process_table_fail _ _ _ H). reflexivity.
Qed.

Lemma fetch_loop_attempts fetch read_csv urls : forall att le,
  exists ext, result_attempts (fetch_loop fetch read_csv urls att le) = att ++ ext.
Proof.
  induction urls as [|u rest IH]; intros att le; simpl.
  - exists []. rewrite app_nil_r. reflexivity.
  - destruct (fetch u) as [st t | n m].
    + destruct (Nat.eqb st 200 && _looks_like_csv t).
      * destruct (read_csv t) as [[hs rs]|]; [rewrite process_table_attempts|]; simpl; eauto.
      * destruct (IH (att ++ [(u, AStatus st)]) le) as [ext Hext].
        exists ((u, AStatus st) :: ext). rewrite Hext, <- app_assoc. reflexivity.
    + destruct (IH (att ++ [(u, AExc n)]) (Some m)) as [ext Hext].
      exists ((u, AExc n) :: ext). rewrite Hext, <- app_assoc. reflexivity.
Qed.

Lemma fetch_loop_first_attempt fetch read_csv u rest att le :
  exists ext, result_attempts (fetch_loop fetch read_csv (u :: rest) att le)
              = att ++ attempt_of fetch u :: ext.
Proof.
  simpl. unfold attempt_of. destruct (fetch u) as [st t | n m].
  - destruct (Nat.eqb st 200 && _looks_like_csv t).
    + destruct (read_csv t) as [[hs rs]|]; [rewrite process_table_attempts|];
        exists []; reflexivity.
    + destruct (fetch_loop_attempts fetch read_csv rest (att ++ [(u, AStatus st)]) le) as [ext H].
      exists ext. rewrite H, <- app_assoc. reflexivity.
  - destruct (fetch_loop_attempts fetch read_csv rest (att ++ [(u, AExc n)]) (Some m)) as [ext H].
    exists ext. rewrite H, <- app_assoc. reflexivity.
Qed.

Lemma variants_head u :
  u <> EmptyString -> exists rest, _variants_of_sheet_url u = u :: rest.
Proof.
  intros Hu. unfold _variants_of_sheet_url.
  apply String.eqb_neq in Hu. rewrite Hu.
  destruct (urlparse u); cbv zeta; unfold dedup; cbn [dedup_from mem existsb]; eauto.
Qed.

Lemma config_value_nonempty e key default :
  default <> EmptyString -> fst (get_config_value e key default) <> EmptyString.
Proof.
  intros Hd. unfold get_config_value, truthy.
  destruct (environ e key) as [v|] eqn:Ev.
  - destruct (String.eqb v EmptyString) eqn:E; simpl.
    + destruct (secrets e) as [get|]; [|exact Hd].
      destruct (get key) as [w|]; [|exact Hd].
      destruct (String.eqb w EmptyString) eqn:Ew; simpl; [exact Hd|].
      apply String.eqb_neq. exact Ew.
    + apply String.eqb_neq. exact E.
  - simpl. destruct (secrets e) as [get|]; [|exact Hd].
    destruct (get key) as [w|]; [|exact Hd].
    destruct (String.eqb w EmptyString) eqn:Ew; simpl; [exact Hd|].
    apply String.eqb_neq. exact Ew.
Qed.



(** Whatever the environment and the network do, the loader's first
    request goes to the configured [SHEET_URL] as-is, and that URL is
    never empty (the default is not, and empty settings fall through). *)
Theorem loader_first_request_is_configured_url e fetch read_csv :
  let url := fst (get_config_value e "SHEET_URL" DEFAULT_SHEET_URL) in
  url <> EmptyString
  /\ exists ext, result_attempts (load_data_with_fallbacks fetch read_csv url)
                 = attempt_of fetch url :: ext.
Proof.
  cbv zeta. assert (Hne := config_value_nonempty e "SHEET_URL" DEFAULT_SHEET_URL ltac:(discriminate)).
  split; [exact Hne|].
  destruct (variants_head _ Hne) as [rest Hv].
  unfold load_data_with_fallbacks. rewrite Hv.
  exact (fetch_loop_first_attempt fetch read_csv _ rest [] None).
Qed.

(** When every candidate is passed over, the loader fails with one
    attempt entry per candidate, in order, and reports the message of the
    last request exception (none if no request raised). *)
Theorem fetch_loop_all_rejected fetch read_csv urls : forall att le,
  forallb (passes_over fetch) urls = true ->
  fetch_loop fetch read_csv urls att le
  = LoadFail (att ++ map (attempt_of fetch) urls) (CouldNotFetch (last_exception fetch urls le)).
Proof.
  induction urls as [|u rest IH]; intros att le H; simpl.
  - rewrite app_nil_r. reflexivity.
  - simpl in H. apply andb_true_iff in H as [Hu Hrest].
    unfold passes_over in Hu. unfold attempt_of at 1. unfold last_exception in *. simpl.
    destruct (fetch u) as [st t | n m].
    + apply negb_true_iff in Hu. rewrite Hu. rewrite (IH _ _ Hrest), <- app_assoc. reflexivity.
    + rewrite (IH _ _ Hrest), <- app_assoc. reflexivity.
Qed.

Lemma fetch_loop_all_rejected_witness :
  forallb (passes_over flaky_fetch) flaky_urls = true
  /\ fetch_loop flaky_fetch demo_read_csv flaky_urls [] None
     = LoadFail [("https://example.org/t", AExc "ConnectTimeout");
                 ("https://example.org/n", AStatus 404);
                 ("https://example.org/r", AExc "ConnectionError");
                 ("https://example.org/a", AStatus 200)]
                (CouldNotFetch (Some "connection reset")).
Proof.
  assert (H : forallb (passes_over flaky_fetch) flaky_urls = true) by reflexivity.
  split; [exact H|].
  rewrite (fetch_loop_all_rejected flaky_fetch demo_read_csv _ [] None H). reflexivity.
Defined.

(** The loop stops at the first candidate answering 200 with a
    CSV-looking body: the later candidates are never requested, and the
    table is processed (or pandas' exception escapes) with the attempts
    of the candidates before it and its own. *)
Theorem fetch_loop_first_accepted fetch read_csv pre v post att le text :
  forallb (passes_over fetch) pre = true ->
  fetch v = FResp 200 text ->
  _looks_like_csv text = true ->
  fetch_loop fetch read_csv (pre ++ v :: post) att le
  = let a := att ++ map (attempt_of fetch) pre ++ [(v, AStatus 200)] in
    match read_csv text with
    | Some (hs, rs) => process_table hs rs a
    | None => LoadCrash a
    end.
Proof.
  intros Hpre Hv Hcsv. revert att le Hpre.
  induction pre as [|u pre IH]; intros att le Hpre; simpl.
  - rewrite Hv, Hcsv. reflexivity.
  - simpl in Hpre. apply andb_true_iff in Hpre as [Hu Hpre].
    unfold passes_over in Hu.
    destruct (fetch u) as [st t | n m] eqn:Hf.
    + apply negb_true_iff in Hu. rewrite Hu. rewrite (IH _ _ Hpre). cbv zeta.
      replace (attempt_of fetch u) with (u, AStatus st) by (unfold attempt_of; rewrite Hf; reflexivity).
      rewrite <- app_assoc. reflexivity.
    + rewrite (IH _ _ Hpre). cbv zeta.
      replace (attempt_of fetch u) with (u, AExc n) by (unfold attempt_of; rewrite Hf; reflexivity).
      rewrite <- app_assoc. reflexivity.
Qed.

Lemma fetch_loop_first_accepted_witness :
  fetch_loop demo_fetch demo_read_csv
    (["https://example.org/a"] ++ "https://example.org/b" :: ["https://example.org/c"]) [] None
  = LoadFail [("https://example.org/a", AStatus 200); ("https://example.org/b", AStatus 200)]
             (NoPincodeColumn ["area"; "zone"]).
Proof.
  rewrite (fetch_loop_first_accepted demo_fetch demo_read_csv ["https://example.org/a"]
             "https://example.org/b" ["https://example.org/c"] [] None demo_csv
             eq_refl eq_refl eq_refl).
  vm_compute. reflexivity.
Defined.



(* ------------------------------------------------------------------ *)
(** ** Header and pincode normalization *)

Lemma all_chars_cons p c s :
  all_chars p (String c s) = p c && all_chars p s.
Proof. reflexivity. Qed.

Lemma keep_chars_all p s : all_chars p (keep_chars p s) = true.
Proof.
  induction s as [|c s IH]; [reflexivity|]. simpl.
  destruct (p c) eqn:E; [rewrite all_chars_cons, E|]; exact IH.
Qed.

Lemma keep_chars_id p s : all_chars p s = true -> keep_chars p s = s.
Proof.
  induction s as [|c s IH]; [reflexivity|]. rewrite all_chars_cons.
  intros H. apply andb_true_iff in H as [Hc Hs]. simpl. rewrite Hc, (IH Hs). reflexivity.
Qed.

Lemma keep_chars_app p s t : keep_chars p (s ++ t) = (keep_chars p s ++ keep_chars p t)%string.
Proof.
  induction s as [|c s IH]; [reflexivity|]. simpl. rewrite IH. destruct (p c); reflexivity.
Qed.

(** The characters a normalized header may hold: brute force over the
    256 code points. *)
Lemma lower_alnum_char_facts c :
  is_lower_alnum_or_space c = true ->
  lower_char c = c /\ Ascii.eqb c "_" = false /\ (is_space c = true -> c = " "%char).
Proof.
  destruct c as [[] [] [] [] [] [] [] []]; vm_compute; intros H;
    try discriminate; repeat split; intros; congruence.
Qed.

Lemma py_lower_id s : all_chars is_lower_alnum_or_space s = true -> py_lower s = s.
Proof.
  induction s as [|c s IH]; [reflexivity|]. rewrite all_chars_cons.
  intros H. apply andb_true_iff in H as [Hc Hs]. simpl.
  rewrite (proj1 (lower_alnum_char_facts c Hc)), (IH Hs). reflexivity.
Qed.

Lemma replace_underscore_id s :
  all_chars is_lower_alnum_or_space s = true -> replace_char "_" " " s = s.
Proof.
  induction s as [|c s IH]; [reflexivity|]. rewrite all_chars_cons.
  intros H. apply andb_true_iff in H as [Hc Hs]. simpl.
  rewrite (proj1 (proj2 (lower_alnum_char_facts c Hc))), (IH Hs). reflexivity.
Qed.

Lemma collapse_ws_aux_chars b s :
  all_chars is_lower_alnum_or_space s = true ->
  all_chars is_lower_alnum_or_space (collapse_ws_aux b s) = true.
Proof.
  revert b; induction s as [|c s IH]; intros b; [reflexivity|]. rewrite all_chars_cons.
  intros H. apply andb_true_iff in H as [Hc Hs]. simpl.
  destruct (is_space c); [destruct b|]; rewrite ?all_chars_cons, ?Hc; simpl; auto.
Qed.

Lemma lstrip_chars p s : all_chars p s = true -> all_chars p (lstrip s) = true.
Proof.
  induction s as [|c s IH]; [reflexivity|]. rewrite all_chars_cons.
  intros H. simpl. destruct (is_space c); [apply andb_true_iff in H as [_ Hs]; auto | ].
  rewrite all_chars_cons. exact H.
Qed.

Lemma all_chars_app p s t :
  all_chars p (s ++ t)%string = all_chars p s && all_chars p t.
Proof.
  induction s as [|c s IH]; [reflexivity|].
  change (String c s ++ t)%string with (String c (s ++ t)%string).
  rewrite !all_chars_cons, IH, andb_assoc. reflexivity.
Qed.

Lemma rev_str_chars p s : all_chars p (rev_str s) = all_chars p s.
Proof.
  induction s as [|c s IH]; [reflexivity|]. simpl.
  rewrite all_chars_app, IH, all_chars_cons. cbn. rewrite andb_true_r, andb_comm. reflexivity.
Qed.

Lemma py_strip_chars p s : all_chars p s = true -> all_chars p (py_strip s) = true.
Proof.
  intros H. unfold py_strip, rstrip. rewrite rev_str_chars.
  apply lstrip_chars. rewrite rev_str_chars. apply lstrip_chars. exact H.
Qed.

Lemma normalize_header_chars col :
  all_chars is_lower_alnum_or_space (_normalize_header col) = true.
Proof. apply keep_chars_all. Qed.

(** [_normalize_header] yields only lower-case ASCII letters, digits and
    spaces, and normalizing its result again only strips the ends and
    collapses the runs of spaces left where punctuation was removed. *)
Theorem normalize_header_charset_and_renormalize col :
  all_chars is_lower_alnum_or_space (_normalize_header col) = true
  /\ _normalize_header (_normalize_header col)
     = collapse_ws (py_strip (_normalize_header col)).
Proof.
  assert (Hc := normalize_header_chars col).
  split; [exact Hc|].
  set (n := _normalize_header col) in *.
  assert (Hs := py_strip_chars _ _ Hc).
  unfold _normalize_header at 1. cbv zeta. unfold remove_bom.
  rewrite (py_lower_id _ Hs), (replace_underscore_id _ Hs).
  apply keep_chars_id. apply collapse_ws_aux_chars. exact Hs.
Qed.


Lemma resolve_service_col_spec cols canonical_text c :
  _resolve_service_col cols canonical_text = Some c ->
  In c cols
  /\ (c = canonical_text
      \/ forallb (fun tok => is_substring tok c) (py_split canonical_text) = true).
Proof.
  unfold _resolve_service_col, _guess_col. simpl.
  destruct (mem canonical_text cols) eqn:Em; simpl.
  - destruct (negb (String.eqb canonical_text EmptyString)) eqn:Ee; simpl.
    + intros H. injection H as <-. split; [apply mem_In; exact Em | left; reflexivity].
    + destruct (py_split canonical_text) as [|tok toks]; [discriminate|].
      intros H. apply find_some in H as [Hin Hf]. split; [exact Hin | right; exact Hf].
  - destruct (py_split canonical_text) as [|tok toks]; [discriminate|].
    intros H. apply find_some in H as [Hin Hf]. split; [exact Hin | right; exact Hf].
Qed.


(* ------------------------------------------------------------------ *)
(** ** The loaded frame and the check *)

Lemma df_set_const_In df c v : In c (columns (df_set_const df c v)).
Proof.
  unfold df_set_const. destruct (col_index (columns df) c) as [i|] eqn:E; simpl.
  - apply col_index_nth_error in E. eapply nth_error_In. exact E.
  - apply in_or_app. right. left. reflexivity.
Qed.

Lemma df_set_const_grows df c v c' :
  In c' (columns df) -> In c' (columns (df_set_const df c v)).
Proof.
  intros H. destruct (df_set_const_columns df c v) as [E | E]; rewrite E;
    [exact H | apply in_or_app; left; exact H].
Qed.

Lemma resolve_services_columns svcs : forall df df' res,
  resolve_services df svcs = (df', res) ->
  (forall c, In c (columns df) -> In c (columns df'))
  /\ map fst res = svcs
  /\ (forall s c, In (s, c) res -> In c (columns df')).
Proof.
  induction svcs as [|s rest IH]; intros df df' res H.
  - simpl in H. inversion H; subst. split; [auto|]. split; [reflexivity|]. intros ? ? [].
  - apply resolve_services_cons in H as (df1 & c & res1 & Hr & -> & Hstep).
    destruct (IH _ _ _ Hr) as (Hgrow & Hkeys & Hcols).
    assert (Hc : In c (columns df1) /\ forall c', In c' (columns df) -> In c' (columns df1)).
    { destruct Hstep as [[-> Hsome] | (-> & -> & _)].
      - split; [exact (proj1 (resolve_service_col_spec _ _ _ Hsome)) | auto].
      - split; [apply df_set_const_In | apply df_set_const_grows]. }
    destruct Hc as [Hc Hgrow1].
    split; [auto|]. split; [simpl; rewrite Hkeys; reflexivity|].
    intros s' c' [Heq | Hin]; [injection Heq as <- <-; auto | eauto].
Qed.

Lemma service_col_In res s :
  In s (map fst res) -> In (s, service_col res s) res.
Proof.
  induction res as [|[s1 c1] res IH]; intros H; [destruct H|].
  unfold service_col. simpl. destruct (service_eqb s1 s) eqn:E.
  - apply service_eqb_eq in E. subst. left. reflexivity.
  - right. apply IH. destruct H as [H | H]; [simpl in H; subst; rewrite (proj2 (service_eqb_eq s s) eq_refl) in E; discriminate | exact H].
Qed.

Lemma rename_remark_In df c :
  In c (columns df) ->
  In c (columns (rename_remark df))
  \/ is_substring "remark" c = true \/ is_substring "note" c = true.
Proof.
  intros H. unfold rename_remark.
  destruct (find _ (columns df)) as [rc|] eqn:Ef; [|left; exact H].
  destruct (truthy (Some rc) && negb (String.eqb rc "remark")); [|left; exact H].
  destruct (String.eqb c rc) eqn:E.
  - apply String.eqb_eq in E. subst. apply find_some in Ef as [_ Hp].
    apply orb_true_iff in Hp. right. exact Hp.
  - left. simpl. apply in_map_iff. exists c. rewrite E. split; [reflexivity | exact H].
Qed.

Lemma pincode_in_loaded hs rs pc :
  _resolve_pincode_col (map _normalize_header hs) = Some pc ->
  let df0 := {| columns := map _normalize_header hs; rows := rs |} in
  In "pincode" (columns (df_map_col (if negb (String.eqb pc "pincode")
                                     then df_rename df0 pc "pincode" else df0)
                                    "pincode" _digits_only)).
Proof.
  intros H. cbv zeta. destruct (pincode_column_index hs rs pc H) as [i [_ Hi]].
  cbv zeta in Hi. rewrite (proj1 (df_map_col_spec _ _ _digits_only _ Hi)).
  apply col_index_nth_error in Hi. eapply nth_error_In. exact Hi.
Qed.

(** After a successful load the frame has a "pincode" column, the
    resolved map covers the four services in [SERVICE_CANONICAL] order,
    and each service's column is a column of the frame, unless that
    column's label holds "remark" or "note" (the remark step may have
    renamed it), and the attempts are returned unchanged. *)
Theorem loaded_frame_columns hs rs att df res att' :
  process_table hs rs att = LoadOk df res att' ->
  att' = att
  /\ In "pincode" (columns df)
  /\ map fst res = SERVICES
  /\ forall s, In (service_col res s) (columns df)
               \/ is_substring "remark" (service_col res s) = true
               \/ is_substring "note" (service_col res s) = true.
Proof.
  destruct (_resolve_pincode_col (map _normalize_header hs)) as [pc|] eqn:H;
    [|rewrite (process_table_fail _ _ _ H); discriminate].
  rewrite (process_table_unfold _ _ _ _ H). cbv zeta.
  pose proof (pincode_in_loaded hs rs pc H) as Hpin. cbv zeta in Hpin.
  match goal with |- LoadOk (rename_remark (fst (resolve_services ?d SERVICES))) _ _ = _ -> _ =>
    destruct (resolve_services d SERVICES) as [df2 res2] eqn:Hr end.
  cbn [fst snd]. intros Heq. injection Heq as <- <- <-.
  destruct (resolve_services_columns _ _ _ _ Hr) as (Hgrow & Hkeys & Hcols).
  split; [reflexivity|]. split.
  - destruct (rename_remark_In df2 "pincode" (Hgrow _ Hpin)) as [Hin | [Hb | Hb]];
      [exact Hin | discriminate | discriminate].
  - split; [exact Hkeys|]. intros s.
    assert (Hs : In s (map fst res2)) by (rewrite Hkeys; destruct s; simpl; tauto).
    apply rename_remark_In. apply (Hcols s). apply service_col_In. exact Hs.
Qed.

Lemma loaded_frame_columns_witness :
  exists df res, process_table sample_headers sample_rows [] = LoadOk df res []
                 /\ In "pincode" (columns df).
Proof.
  exists sample_df, sample_resolved.
  assert (H : process_table sample_headers sample_rows [] = LoadOk sample_df sample_resolved [])
    by (vm_compute; reflexivity).
  split; [exact H | exact (proj1 (proj2 (loaded_frame_columns _ _ _ _ _ _ H)))].
Defined.

Lemma row_get_str_missing df row c :
  ~ In c (columns df) -> row_get_str df row c = EmptyString.
Proof.
  intros H. unfold row_get_str. destruct (col_index (columns df) c) as [i|] eqn:E; [|reflexivity].
  exfalso. apply H. apply col_index_nth_error in E. eapply nth_error_In. exact E.
Qed.

(** A service whose resolved column is not a column of the frame (the
    remark step renamed it) is never reported serviceable, whatever the
    row holds. *)
Theorem service_without_column_never_serviceable df res s input pin :
  ~ In (service_col res s) (columns df) ->
  ~ In (MsgServiceable s pin) (check df res s input).
Proof.
  intros Hc. assert (Hy : forall row, yes_at df row (service_col res s) = false).
  { intros row. unfold yes_at, row_get.
    destruct (col_index (columns df) (service_col res s)) as [i|] eqn:E; [|reflexivity].
    exfalso. apply Hc. apply col_index_nth_error in E. eapply nth_error_In. exact E. }
  unfold check. destruct (negb (Nat.eqb (String.length (_digits_only input)) 6)).
  - simpl. intuition discriminate.
  - destruct (negb (Nat.eqb (col_count (columns df) "pincode") 1));
      [simpl; intuition discriminate|].
    destruct (find _ (rows df)) as [row|].
    + unfold evaluate_row. cbv zeta. rewrite Hy. simpl. intuition discriminate.
    + simpl. intuition discriminate.
Qed.

Lemma service_without_column_never_serviceable_witness :
  ~ In (service_col notes_resolved S4W_Tyre) (columns notes_df)
  /\ ~ In (MsgServiceable S4W_Tyre "400001") (check notes_df notes_resolved S4W_Tyre "400001")
  /\ check notes_df notes_resolved S4W_Tyre "400001" = [MsgNotServiceable S4W_Tyre "400001"].
Proof.
  assert (H : ~ In (service_col notes_resolved S4W_Tyre) (columns notes_df)).
  { vm_compute. intuition discriminate. }
  split; [exact H|]. split.
  - exact (service_without_column_never_serviceable _ _ _ _ _ H).
  - vm_compute. reflexivity.
Defined.


Lemma length_keep_chars p s : String.length (keep_chars p s) <= String.length s.
Proof.
  induction s as [|c s IH]; simpl; [lia|]. destruct (p c); simpl; lia.
Qed.

Lemma length_keep_chars_eq p s :
  String.length (keep_chars p s) = String.length s -> all_chars p s = true.
Proof.
  induction s as [|c s IH]; [reflexivity|]. simpl. rewrite all_chars_cons.
  destruct (p c); simpl; intros H.
  - apply IH. lia.
  - pose proof (length_keep_chars p s). lia.
Qed.





(* ------------------------------------------------------------------ *)
(** ** Load error message and query dictionary *)

Lemma repr_char_header_char c :
  is_lower_alnum_or_space c = true ->
  repr_char "'" c = String c EmptyString /\ Ascii.eqb c "'" = false.
Proof.
  destruct c as [[] [] [] [] [] [] [] []]; vm_compute; intros H;
    try discriminate; split; reflexivity.
Qed.

Lemma repr_header_chars s :
  all_chars is_lower_alnum_or_space s = true ->
  String.concat EmptyString (map (repr_char "'") (list_ascii_of_string s)) = s
  /\ contains_char "'" s = false.
Proof.
  induction s as [|c s IH]; [split; reflexivity|]. rewrite all_chars_cons.
  intros H. apply andb_true_iff in H as [Hc Hs].
  destruct (repr_char_header_char c Hc) as [Hr Hq]. destruct (IH Hs) as [Hcat Hcon].
  split.
  - simpl. rewrite Hr. destruct (list_ascii_of_string s) eqn:E.
    + destruct s; [reflexivity | discriminate].
    + simpl in Hcat |- *. rewrite Hcat. reflexivity.
  - simpl. rewrite Hq, Hcon. reflexivity.
Qed.

Lemma py_repr_header s :
  all_chars is_lower_alnum_or_space s = true ->
  py_repr s = ("'" ++ s ++ "'")%string.
Proof.
  intros H. destruct (repr_header_chars s H) as [Hcat Hcon].
  unfold py_repr. rewrite Hcon. simpl andb. cbv iota. rewrite Hcat. reflexivity.
Qed.

(** When no pincode column is found, the error message lists the
    normalized headers, each in single quotes and unescaped (a
    normalized header holds no quote, backslash or control character),
    in sheet order. *)
Theorem no_pincode_message_lists_headers hs :
  load_error_message (NoPincodeColumn (map _normalize_header hs))
  = ("No pincode-like column found. Columns: ["
     ++ String.concat ", " (map (fun h => "'" ++ _normalize_header h ++ "'") hs)
     ++ "]")%string.
Proof.
  unfold load_error_message, py_list_repr. rewrite map_map.
  erewrite map_ext; [reflexivity|]. intros h.
  apply py_repr_header. apply normalize_header_chars.
Qed.

Lemma dict_get_set_other d k v k' :
  codes_eqb k k' = false -> dict_get (dict_set d k v) k' = dict_get d k'.
Proof.
  intros Hne. unfold dict_get, dict_set.
  destruct (existsb (fun '(k1, _) => codes_eqb k1 k) d).
  - induction d as [|[k1 v1] d IH]; [reflexivity|]. simpl.
    destruct (codes_eqb k1 k) eqn:E1; simpl.
    + apply codes_eqb_eq in E1. subst k1. rewrite Hne. exact IH.
    + destruct (codes_eqb k1 k'); [reflexivity | exact IH].
  - induction d as [|[k1 v1] d IH]; simpl; [rewrite Hne; reflexivity|].
    destruct (codes_eqb k1 k'); [reflexivity | exact IH].
Qed.

Lemma map_fst_dict_set d k v :
  map fst (dict_set d k v) = map fst d \/ (~ In k (map fst d) /\ map fst (dict_set d k v) = map fst d ++ [k]).
Proof.
  unfold dict_set. destruct (existsb (fun '(k1, _) => codes_eqb k1 k) d) eqn:Ex.
  - left. rewrite map_map. apply map_ext. intros [k1 v1]. destruct (codes_eqb k1 k); reflexivity.
  - right. split; [|rewrite map_app; reflexivity].
    intros Hin. apply in_map_iff in Hin as [[k1 v1] [Hk Hin]]. simpl in Hk. subst k1.
    assert (Hx : existsb (fun '(k1, _) => codes_eqb k1 k) d = true).
    { apply existsb_exists. exists (k, v1). split; [exact Hin | apply codes_eqb_refl]. }
    congruence.
Qed.

Lemma dict_fold_spec pairs : forall d k,
  NoDup (map fst d) ->
  dict_get (fold_left (fun d '(k, v) => dict_set d k v) pairs d) k
  = fold_left (fun acc '(k', v) => if codes_eqb k' k then Some v else acc) pairs (dict_get d k)
  /\ NoDup (map fst (fold_left (fun d '(k, v) => dict_set d k v) pairs d)).
Proof.
  induction pairs as [|[k1 v1] pairs IH]; intros d k Hnd; [split; [reflexivity | exact Hnd]|].
  simpl.
  assert (Hnd' : NoDup (map fst (dict_set d k1 v1))).
  { destruct (map_fst_dict_set d k1 v1) as [E | [Hn E]]; rewrite E; [exact Hnd|].
    apply NoDup_app; [exact Hnd | constructor; [intros [] | constructor] |].
    intros x Hx [Hy | []]. subst. contradiction. }
  destruct (IH (dict_set d k1 v1) k Hnd') as [Hget Hnd2]. split; [|exact Hnd2].
  rewrite Hget. f_equal. destruct (codes_eqb k1 k) eqn:E.
  - apply codes_eqb_eq in E. subst. apply dict_get_set_same.
  - apply dict_get_set_other. exact E.
Qed.

(** [dict(parse_qsl(...))] keeps each query key once, and the value it
    holds for a key is the value of that key's last pair: a repeated
    query parameter such as [output] takes its last value. *)
Theorem dict_of_pairs_last_value pairs k :
  dict_get (dict_of_pairs pairs) k = last_value pairs k
  /\ NoDup (map fst (dict_of_pairs pairs)).
Proof. exact (dict_fold_spec pairs [] k (NoDup_nil _)). Qed.

(* ------------------------------------------------------------------ *)
(** ** Requests of one load, and what counts as CSV *)

Lemma result_attempts_fetch_loop fetch read_csv urls : forall att le,
  exists k, result_attempts (fetch_loop fetch read_csv urls att le)
            = att ++ firstn k (map (attempt_of fetch) urls).
Proof.
  induction urls as [|u rest IH]; intros att le; simpl.
  - exists 0. rewrite app_nil_r. reflexivity.
  - destruct (fetch u) as [st t | n m] eqn:Hf.
    + replace (attempt_of fetch u) with (u, AStatus st)
        by (unfold attempt_of; rewrite Hf; reflexivity).
      destruct (Nat.eqb st 200 && _looks_like_csv t).
      * exists 1. simpl. destruct (read_csv t) as [[hs rs]|];
          [rewrite process_table_attempts|]; reflexivity.
      * destruct (IH (att ++ [(u, AStatus st)]) le) as [k Hk]. exists (S k).
        rewrite Hk, <- app_assoc. reflexivity.
    + replace (attempt_of fetch u) with (u, AExc n)
        by (unfold attempt_of; rewrite Hf; reflexivity).
      destruct (IH (att ++ [(u, AExc n)]) (Some m)) as [k Hk]. exists (S k).
      rewrite Hk, <- app_assoc. reflexivity.
Qed.

Lemma dedup_from_length seen vs : length (dedup_from seen vs) <= length vs.
Proof.
  revert seen; induction vs as [|v vs IH]; intros seen; simpl; [lia|].
  destruct (mem v seen); simpl; [specialize (IH seen) | specialize (IH (v :: seen))]; lia.
Qed.

Lemma variants_nodup_length u :
  NoDup (_variants_of_sheet_url u) /\ length (_variants_of_sheet_url u) <= 4.
Proof.
  unfold _variants_of_sheet_url. destruct (String.eqb u EmptyString).
  - split; [constructor | simpl; lia].
  - cbv zeta. unfold dedup. split; [apply dedup_from_spec|].
    destruct (urlparse u); etransitivity; try apply dedup_from_length; simpl; lia.
Qed.

Lemma map_fst_attempts fetch urls : map fst (map (attempt_of fetch) urls) = urls.
Proof.
  induction urls as [|u rest IH]; [reflexivity|]. simpl. rewrite IH.
  unfold attempt_of. destruct (fetch u); reflexivity.
Qed.

(** One load requests the candidate URLs in order and stops at the first
    accepted one: its attempts are a prefix of the candidates, each
    tagged with its status or exception, so it makes at most four
    requests and never requests a URL twice. *)
Theorem load_requests_distinct_candidates fetch read_csv url :
  exists k,
    result_attempts (load_data_with_fallbacks fetch read_csv url)
    = firstn k (map (attempt_of fetch) (_variants_of_sheet_url url))
    /\ NoDup (map fst (result_attempts (load_data_with_fallbacks fetch read_csv url)))
    /\ length (result_attempts (load_data_with_fallbacks fetch read_csv url)) <= 4.
Proof.
  destruct (result_attempts_fetch_loop fetch read_csv (_variants_of_sheet_url url) [] None)
    as [k Hk].
  unfold load_data_with_fallbacks. rewrite Hk. exists k. simpl.
  destruct (variants_nodup_length url) as [Hnd Hlen].
  rewrite firstn_map, map_map.
  replace (map (fun x => fst (attempt_of fetch x)) (firstn k (_variants_of_sheet_url url)))
    with (firstn k (_variants_of_sheet_url url))
    by (rewrite <- map_map, map_fst_attempts; reflexivity).
  split; [reflexivity|]. split.
  - apply (NoDup_app_remove_r _ (skipn k (_variants_of_sheet_url url))).
    rewrite firstn_skipn. exact Hnd.
  - rewrite length_map, length_firstn. lia.
Qed.

Lemma prefix_lower s t :
  String.prefix s t = true -> String.prefix (py_lower s) (py_lower t) = true.
Proof.
  revert t; induction s as [|a s IH]; intros t H.
  - destruct t; reflexivity.
  - destruct t as [|b t]; [discriminate|]. simpl in H |- *.
    destruct (Ascii.ascii_dec a b) as [->|]; [|discriminate].
    destruct (Ascii.ascii_dec (lower_char b) (lower_char b)) as [_|C]; [|congruence].
    apply IH. exact H.
Qed.

Lemma is_substring_lower s t :
  is_substring s t = true -> is_substring (py_lower s) (py_lower t) = true.
Proof.
  induction t as [|c t IH]; intros H.
  - destruct s; [reflexivity | discriminate].
  - change (is_substring s (String c t))
      with (if String.prefix s (String c t) then true else is_substring s t) in H.
    change (py_lower (String c t)) with (String (lower_char c) (py_lower t)).
    change (is_substring (py_lower s) (String (lower_char c) (py_lower t)))
      with (if String.prefix (py_lower s) (String (lower_char c) (py_lower t)) then true
            else is_substring (py_lower s) (py_lower t)).
    destruct (String.prefix s (String c t)) eqn:P.
    + apply prefix_lower in P. change (py_lower (String c t))
        with (String (lower_char c) (py_lower t)) in P. rewrite P. reflexivity.
    + destruct (String.prefix (py_lower s) (String (lower_char c) (py_lower t)));
        [reflexivity | exact (IH H)].
Qed.

(** A response body holding an HTML tag ("<html", in any letter case) is
    never taken as CSV, and an accepted body always holds a line break
    and a comma or a tab. *)
Theorem looks_like_csv_rejects_html text tag :
  (py_lower tag = "<html" -> is_substring tag text = true -> _looks_like_csv text = false)
  /\ (_looks_like_csv text = true ->
      is_substring (String (ascii_of_nat 10) EmptyString) text = true
      /\ (is_substring "," text = true
          \/ is_substring (String (ascii_of_nat 9) EmptyString) text = true)).
Proof.
  unfold _looks_like_csv. split.
  - intros Ht Hs. destruct (String.eqb text EmptyString); [reflexivity|]. cbv zeta.
    apply is_substring_lower in Hs. rewrite Ht in Hs. rewrite Hs. reflexivity.
  - destruct (String.eqb text EmptyString); [discriminate|]. cbv zeta.
    destruct (_ || _); [discriminate|].
    intros H. apply andb_true_iff in H as [H1 H2]. split; [exact H2|].
    apply orb_true_iff in H1. exact H1.
Qed.

Lemma looks_like_csv_rejects_html_witness :
  _looks_like_csv "<!DOCTYPE x><HTML>a,b
1,2" = false.
Proof.
  exact (proj1 (looks_like_csv_rejects_html "<!DOCTYPE x><HTML>a,b
1,2" "<HTML") eq_refl eq_refl).
Defined.

(* ------------------------------------------------------------------ *)
(** ** The secret sheet URL on the page, and the remark line *)



Lemma col_index_none_count cols c : col_index cols c = None -> col_count cols c = 0.
Proof.
  induction cols as [|d cols IH]; [reflexivity|]. unfold col_count. simpl.
  destruct (String.eqb d c); [discriminate|].
  destruct (col_index cols c); [discriminate|]. intros _. apply IH. reflexivity.
Qed.

Lemma str_or_empty_row_get df row c :
  str_or_empty (row_get df row c)
  = if Nat.ltb 1 (col_count (columns df) c) then None else Some (row_get_str df row c).
Proof.
  unfold row_get, row_get_str. destruct (col_index (columns df) c) as [i|] eqn:E.
  - destruct (Nat.ltb 1 (col_count (columns df) c)); reflexivity.
  - rewrite (col_index_none_count _ _ E). reflexivity.
Qed.

(** On a serviceable answer the remark line reads [str()] of the row's
    "remark" field (so an empty, NaN, field shows as "nan"): without a
    "remark" column nothing is shown; with one, the stripped text is
    shown unless it is empty or "-", and no other remark is; with a
    repeated "remark" label (a "Notes" column renamed beside an existing
    "Remark") the line raises after the verdict and no remark is shown. *)
Theorem remark_line df res s input row :
  String.length (_digits_only input) = 6 ->
  col_count (columns df) "pincode" = 1 ->
  find (fun r => String.eqb (row_get_str df r "pincode") (_digits_only input)) (rows df)
    = Some row ->
  In (MsgServiceable s (_digits_only input)) (check df res s input) ->
  (col_count (columns df) "remark" = 0 ->
     (forall r, ~ In (MsgRemark r) (check df res s input))
     /\ ~ In MsgException (check df res s input))
  /\ (col_count (columns df) "remark" = 1 ->
      let remark := py_strip (row_get_str df row "remark") in
      (In (MsgRemark remark) (check df res s input) <-> remark <> EmptyString /\ remark <> "-")
      /\ (forall r, In (MsgRemark r) (check df res s input) -> r = remark)
      /\ ~ In MsgException (check df res s input))
  /\ (1 < col_count (columns df) "remark" ->
      In MsgException (check df res s input)
      /\ forall r, ~ In (MsgRemark r) (check df res s input)).
Proof.
  intros Hlen Hc Hfind Hserv.
  rewrite (check_reaches_row _ _ _ _ _ Hlen Hc Hfind) in Hserv |- *.
  apply evaluate_row_serviceable in Hserv.
  unfold evaluate_row. rewrite Hserv. rewrite str_or_empty_row_get.
  set (W := if service_eqb s S4W_Tyre && is_4w_only df res row then [MsgOnly4WTyre] else []).
  assert (HW : forall m, In m W -> m = MsgOnly4WTyre).
  { intros m Hm. unfold W in Hm. destruct (_ && _); simpl in Hm; intuition. }
  set (n := col_count (columns df) "remark").
  split; [|split].
  - intros Hn. rewrite Hn. cbn iota beta.
    replace (row_get_str df row "remark") with EmptyString.
    2:{ unfold row_get_str. destruct (col_index (columns df) "remark") eqn:E; [|reflexivity].
        exfalso. apply col_index_nth_error, nth_error_In in E.
        unfold n, col_count in Hn. apply length_zero_iff_nil in Hn.
        assert (In "remark" (filter (fun d => String.eqb d "remark") (columns df)))
          by (apply filter_In; split; [exact E | apply String.eqb_refl]).
        rewrite Hn in H. exact H. }
    cbn. split.
    + intros r [H | H]; [discriminate|]. apply in_app_or in H as [H | []].
      apply HW in H. discriminate.
    + intros [H | H]; [discriminate|]. apply in_app_or in H as [H | []].
      apply HW in H. discriminate.
  - intros Hn. rewrite Hn. cbv beta iota fix zeta delta [Nat.ltb Nat.leb]. cbn [app].
    set (remark := py_strip (row_get_str df row "remark")).
    destruct (negb (String.eqb remark EmptyString) && negb (String.eqb remark "-")) eqn:E.
    + apply andb_true_iff in E as [E1 E2]. apply negb_true_iff, String.eqb_neq in E1, E2.
      split; [|split].
      * split; [intros _; split; assumption|]. intros _. right. apply in_or_app. right. left. reflexivity.
      * intros r [H | H]; [discriminate|]. apply in_app_or in H as [H | [H | []]].
        -- apply HW in H. discriminate.
        -- injection H as <-. reflexivity.
      * intros [H | H]; [discriminate|]. apply in_app_or in H as [H | [H | []]];
          [apply HW in H|]; discriminate.
    + split; [|split].
      * split.
        -- intros [H | H]; [discriminate|]. apply in_app_or in H as [H | []].
           apply HW in H. discriminate.
        -- intros [E1 E2]. apply String.eqb_neq in E1, E2. rewrite E1, E2 in E. discriminate.
      * intros r [H | H]; [discriminate|]. apply in_app_or in H as [H | []].
        apply HW in H. discriminate.
      * intros [H | H]; [discriminate|]. apply in_app_or in H as [H | []].
        apply HW in H. discriminate.
  - intros Hn. apply Nat.ltb_lt in Hn. rewrite Hn. cbn [app]. split.
    + right. apply in_or_app. right. left. reflexivity.
    + intros r [H | H]; [discriminate|]. apply in_app_or in H as [H | [H | []]];
        [apply HW in H|]; discriminate.
Qed.

Lemma remark_line_witness :
  In (MsgRemark "nan") (check blank_remark_df blank_remark_resolved S4W_Tyre "400001")
  /\ In MsgException (check dup_remark_df dup_remark_resolved S4W_Tyre "400001").
Proof.
  split.
  - refine (proj2 (proj1 ((proj1 (proj2 (remark_line blank_remark_df blank_remark_resolved
                   S4W_Tyre "400001"
                   [Some "400001"; Some "Yes"; None; Some "no"; Some "no"; Some "no"]
                   _ _ _ _))) _)) _); vm_compute;
      first [reflexivity | left; reflexivity | split; discriminate].
  - refine (proj1 ((proj2 (proj2 (remark_line dup_remark_df dup_remark_resolved
                   S4W_Tyre "400001"
                   [Some "400001"; Some "Yes"; Some "n1"; Some "r1"; Some "no"; Some "no"; Some "no"]
                   _ _ _ _))) _)); vm_compute;
      first [reflexivity | left; reflexivity | lia].
Defined.
